(** * FontSnip: glyph fingerprinting and font matching

    A shallow embedding of

    - [src/fontsnip/matching/feature_extractor.py]  (module [FeatureExtractor]),
    - [scripts/build_font_database.py]              (module [BuildFontDatabase]),
    - [src/fontsnip/matching/font_matcher.py]       (module [FontMatcher]),

    followed by the properties of the fingerprinting and matching engine.

    Numbers are IEEE 754 values ([spec_float] of the standard library):
    Python [float] and [np.float64] are binary64, [np.float32] is binary32.
    OpenCV and Pillow are external collaborators and enter as interfaces. *)

From Stdlib Require Import String Ascii.
From Stdlib Require Import ZArith List Bool Lia.
From Stdlib Require Import Sorting.Sorted Sorting.Permutation.
From Stdlib Require Import Floats.SpecFloat.
Import ListNotations.

(* ================================================================= *)
(** ** IEEE 754 arithmetic as NumPy and Python use it *)

Module IEEE.

Definition float := spec_float.

(** binary32: 24 bits of precision, binary64: 53. *)
Definition prec32 : Z := 24.
Definition emax32 : Z := 128.
Definition prec64 : Z := 53.
Definition emax64 : Z := 1024.

Definition pos_zero : float := S754_zero false.

(** 1.0 and the next float32 above it, 1 + 2^-23. *)
Definition f32_one : float := S754_finite false 8388608 (-23).
Definition f32_above_one : float := S754_finite false 8388609 (-23).

Definition f32_add : float -> float -> float := SFadd prec32 emax32.
Definition f32_mul : float -> float -> float := SFmul prec32 emax32.
Definition f32_div : float -> float -> float := SFdiv prec32 emax32.
Definition f32_sqrt : float -> float := SFsqrt prec32 emax32.

Definition f64_add : float -> float -> float := SFadd prec64 emax64.
Definition f64_sub : float -> float -> float := SFsub prec64 emax64.
Definition f64_div : float -> float -> float := SFdiv prec64 emax64.
Definition f64_sqrt : float -> float := SFsqrt prec64 emax64.

(** Conversion of an integer, rounding to nearest even. *)
Definition f32_of_Z (z : Z) : float := binary_normalize prec32 emax32 z 0 false.
Definition f64_of_Z (z : Z) : float := binary_normalize prec64 emax64 z 0 false.

(** The cast performed by [np.array(..., dtype=np.float32)]. *)
Definition to_f32 (x : float) : float :=
  match x with
  | S754_finite s m e => binary_round prec32 emax32 s m e
  | _ => x
  end.

Definition is_nan (x : float) : bool :=
  match x with S754_nan => true | _ => false end.

Definition is_inf (x : float) : bool :=
  match x with S754_infinity _ => true | _ => false end.

(** Strictly positive, possibly infinite. *)
Definition is_positive (x : float) : bool :=
  match x with
  | S754_finite false _ _ | S754_infinity false => true
  | _ => false
  end.

Definition is_finite (x : float) : bool :=
  match x with
  | S754_zero _ | S754_finite _ _ _ => true
  | S754_infinity _ | S754_nan => false
  end.

(** Python's [==], [<] on floats; a comparison with NaN is false. *)
Definition feq : float -> float -> bool := SFeqb.
Definition flt : float -> float -> bool := SFltb.

End IEEE.

(* ================================================================= *)
(** ** Python: exceptions, true division, slices, dictionaries *)

Module Python.
Import IEEE.

Inductive exn := ValueError | AxisError.

Inductive result (A : Type) : Type :=
| Ok (a : A)
| Raise (e : exn).
Arguments Ok {A} a.
Arguments Raise {A} e.

Definition bind {A B} (m : result A) (k : A -> result B) : result B :=
  match m with
  | Ok a => k a
  | Raise e => Raise e
  end.

(** [a / b], the true division of two integers: the quotient as a binary64
    value.  Between two [int]s the sources guard the divisor; the builder's
    pixel density divides a NumPy integer, where a zero divisor gives
    infinity or NaN, as [SFdiv] does. *)
Definition int_truediv (a b : Z) : float := f64_div (f64_of_Z a) (f64_of_Z b).

(** [l[:k]] for an [int] k; a negative k counts from the end. *)
Definition slice_to {A} (l : list A) (k : Z) : list A :=
  if (0 <=? k)%Z then firstn (Z.to_nat k) l
  else firstn (length l - Z.to_nat (- k)) l.

(** [d[key] = value] on an insertion-ordered [dict]. *)
Fixpoint dict_set {V} (d : list (string * V)) (key : string) (value : V)
  : list (string * V) :=
  match d with
  | [] => [(key, value)]
  | (k, v) :: rest =>
      if String.eqb k key then (k, value) :: rest
      else (k, v) :: dict_set rest key value
  end.

(** [list.sort(key=..., reverse=True)]: a stable sort, largest key first;
    elements whose keys do not compare as smaller keep their original
    order.  An insertion sort with this comparison is the specification
    every stable sort meets on keys that are totally pre-ordered. *)
Section Sort.
Variable A : Type.
Variable key : A -> float.

Fixpoint insert_reverse (x : A) (l : list A) : list A :=
  match l with
  | [] => [x]
  | y :: ys =>
      if flt (key x) (key y) then y :: insert_reverse x ys
      else x :: y :: ys
  end.

Fixpoint sort_reverse (l : list A) : list A :=
  match l with
  | [] => []
  | x :: xs => insert_reverse x (sort_reverse xs)
  end.
End Sort.
Arguments insert_reverse {A} key x l.
Arguments sort_reverse {A} key l.

End Python.

Notation "x <- m ;; k" := (Python.bind m (fun x => k))
  (at level 61, m at next level, right associativity).

(* ================================================================= *)
(** ** NumPy: one-dimensional float32 arrays *)

Module Numpy.
Import IEEE Python.

(** A 1-D [np.ndarray] of dtype float32; its shape is [(length v,)]. *)
Definition vec := list float.

Definition zeros (n : nat) : vec := repeat pos_zero n.

Definition shape_eqb (a b : vec) : bool := Nat.eqb (length a) (length b).

(** A 2-D [uint8] image: [item r c] is the pixel in row r, column c. *)
Record ndarray := { shape : list nat; item : nat -> nat -> Z }.

Definition ndim (a : ndarray) : nat := length (shape a).
Definition size (a : ndarray) : nat := fold_right Nat.mul 1%nat (shape a).

(** [np.dot] on two 1-D float32 arrays; unequal lengths raise. *)
Definition dot (a b : vec) : result float :=
  if shape_eqb a b then
    Ok (fold_left (fun acc p => f32_add acc (f32_mul (fst p) (snd p)))
                  (combine a b) pos_zero)
  else Raise ValueError.

(** [np.linalg.norm] of a 1-D float32 array: [sqrt(x.dot(x))]. *)
Definition norm (a : vec) : float :=
  f32_sqrt (fold_left (fun acc x => f32_add acc (f32_mul x x)) a pos_zero).

Definition vadd (a b : vec) : vec :=
  map (fun p => f32_add (fst p) (snd p)) (combine a b).

(** [np.mean(rows, axis=0)] on a non-empty list of 1-D float32 arrays:
    the rows are added up in order and divided by their number.  Rows of
    different lengths do not form an array: ValueError. *)
Definition mean_axis0 (first : vec) (rest : list vec) : result vec :=
  if forallb (shape_eqb first) rest then
    let total := fold_left vadd rest first in
    let count := f32_of_Z (Z.of_nat (S (length rest))) in
    Ok (map (fun s => f32_div s count) total)
  else Raise ValueError.

End Numpy.

(* ================================================================= *)
(** ** OpenCV and Pillow: the external collaborators *)

Module Cv2.
Import IEEE Numpy.

Definition point := (Z * Z)%type.
Definition contour := list point.

(** One row of the hierarchy: [Next, Previous, First_Child, Parent];
    -1 stands for "none". *)
Record hierarchy_row :=
  { h_next : Z; h_prev : Z; h_first_child : Z; h_parent : Z }.

Record moments_t := { m00 : float; m10 : float; m01 : float }.

(** The calls the sources make into [cv2].  [findContours] is the call
    with [RETR_TREE] and [CHAIN_APPROX_SIMPLE]; its hierarchy is [None] or
    the rows of [hierarchy[0]], one per contour.  [copyMakeBorder] is the
    call with a one pixel constant border of value 0. *)
Class OpenCV := {
  countNonZero : ndarray -> Z;
  moments : ndarray -> moments_t;
  copyMakeBorder : ndarray -> ndarray;
  findContours : ndarray -> list contour * option (list hierarchy_row);
  findContours_rows :
    forall img cs rows,
      findContours img = (cs, Some rows) -> length rows = length cs;
  arcLength : contour -> float;
  contourArea : contour -> float;
  boundingRect : contour -> nat * nat * nat * nat;
  contour_moments : contour -> moments_t
}.

Definition has_parent (row : hierarchy_row) : bool :=
  negb (h_parent row =? -1)%Z.

End Cv2.

Module Pillow.
Import Numpy.

(** A font file: [name] is [font_path.name]. *)
Record font_path := { path : string; name : string }.

(** [render_char font_path char font_size canvas_size]: the centred glyph
    on the canvas, or [None] when the font or the glyph cannot be
    rendered. *)
Class Renderer := {
  render_char : font_path -> ascii -> nat -> nat * nat -> option ndarray
}.

End Pillow.

(* ================================================================= *)
(** ** src/fontsnip/matching/feature_extractor.py *)

Module FeatureExtractor.
Import IEEE Python Numpy Cv2.

Definition FEATURE_VECTOR_SIZE : nat := 7.

(** [feature_vector[np.isnan(feature_vector)] = 0.0] and the same for
    [np.isinf]. *)
Definition nan_to_zero (v : vec) : vec :=
  map (fun x => if is_nan x then pos_zero else x) v.
Definition inf_to_zero (v : vec) : vec :=
  map (fun x => if is_inf x then pos_zero else x) v.

(** The first loop over the hierarchy: contours that have a parent.
    [hierarchy[0][i]] is paired with [contours[i]]; OpenCV returns one row
    per contour ([findContours_rows]). *)
Definition count_holes (contours : list contour) (rows : list hierarchy_row) : Z :=
  fold_left (fun num_holes cr => if has_parent (snd cr) then num_holes + 1 else num_holes)%Z
            (combine contours rows) 0%Z.

(** The second loop: perimeter and area of the external contours. *)
Definition external_totals `{OpenCV}
    (contours : list contour) (rows : list hierarchy_row) : float * float :=
  fold_left
    (fun acc cr =>
       if has_parent (snd cr) then acc
       else (f64_add (fst acc) (arcLength (fst cr)),
             f64_add (snd acc) (contourArea (fst cr))))
    (combine contours rows) (pos_zero, pos_zero).

Definition extract_features `{OpenCV} (char_image : option ndarray) : vec :=
  match char_image with
  | None => zeros FEATURE_VECTOR_SIZE
  | Some img =>
    if negb (ndim img =? 2)%nat || (size img =? 0)%nat
    then zeros FEATURE_VECTOR_SIZE
    else
      match shape img with
      | [h; w] =>
        if ((h =? 0) || (w =? 0))%nat then zeros FEATURE_VECTOR_SIZE
        else
          let aspect_ratio := int_truediv (Z.of_nat w) (Z.of_nat h) in
          let total_pixels := Z.of_nat (h * w) in
          let white_pixels := countNonZero img in
          let pixel_density :=
            if (0 <? total_pixels)%Z then int_truediv white_pixels total_pixels
            else pos_zero in
          let mom := moments img in
          let '(norm_centroid_x, norm_centroid_y) :=
            if negb (feq (m00 mom) pos_zero) then
              let center_x := f64_div (m10 mom) (m00 mom) in
              let center_y := f64_div (m01 mom) (m00 mom) in
              (f64_div center_x (f64_of_Z (Z.of_nat w)),
               f64_div center_y (f64_of_Z (Z.of_nat h)))
            else (pos_zero, pos_zero) in
          let padded_image := copyMakeBorder img in
          let '(contours, hierarchy) := findContours padded_image in
          let '(num_holes, (total_perimeter, total_area)) :=
            match hierarchy with
            | Some rows =>
                (count_holes contours rows, external_totals contours rows)
            | None => (0%Z, (pos_zero, pos_zero))
            end in
          let diagonal :=
            f64_sqrt (f64_of_Z (Z.of_nat h ^ 2 + Z.of_nat w ^ 2)) in
          let norm_perimeter :=
            if flt pos_zero diagonal then f64_div total_perimeter diagonal
            else pos_zero in
          let norm_area :=
            if (0 <? total_pixels)%Z
            then f64_div total_area (f64_of_Z total_pixels)
            else pos_zero in
          let feature_vector :=
            map to_f32
                [aspect_ratio; pixel_density; norm_centroid_x; norm_centroid_y;
                 f64_of_Z num_holes; norm_perimeter; norm_area] in
          inf_to_zero (nan_to_zero feature_vector)
      | _ => zeros FEATURE_VECTOR_SIZE  (* [h, w = shape] needs ndim = 2 *)
      end
  end.

End FeatureExtractor.

(* ================================================================= *)
(** ** scripts/build_font_database.py *)

Module BuildFontDatabase.
Import IEEE Python Numpy Cv2 Pillow.

Definition CHARSET : list ascii :=
  list_ascii_of_string
    "abcdefghijklmnopqrstuvwxyzABCDEFGHIJKLMNOPQRSTUVWXYZ0123456789".
Definition FONT_SIZE : nat := 48.
Definition CANVAS_SIZE : nat * nat := (64, 64)%nat.

(** [next(i for i, h in enumerate(hierarchy[0]) if h[3] == -1)] together
    with [contours[i]], over the rows paired with their contours; [None] is
    [StopIteration]. *)
Fixpoint first_root (i : nat) (crs : list (contour * hierarchy_row))
  : option (nat * contour) :=
  match crs with
  | [] => None
  | (c, row) :: rest =>
      if (h_parent row =? -1)%Z then Some (i, c) else first_root (S i) rest
  end.

(** [np.sum(roi > 0)] and [roi.size] for [roi = glyph_img[y:y+h, x:x+w]];
    the slice is clipped to the image. *)
Definition roi_rows (img : ndarray) (y h : nat) : list nat :=
  match shape img with
  | [H; _] => seq y (Nat.min (y + h) H - y)
  | _ => []
  end.
Definition roi_cols (img : ndarray) (x w : nat) : list nat :=
  match shape img with
  | [_; W] => seq x (Nat.min (x + w) W - x)
  | _ => []
  end.
Definition roi_positive (img : ndarray) (x y w h : nat) : Z :=
  fold_left
    (fun n r =>
       fold_left (fun n c => if (0 <? item img r c)%Z then n + 1 else n)%Z
                 (roi_cols img x w) n)
    (roi_rows img y h) 0%Z.
Definition roi_size (img : ndarray) (x y w h : nat) : Z :=
  Z.of_nat (length (roi_rows img y h) * length (roi_cols img x w)).

(** [np.sum(hierarchy[0, :, 3] == outer_contour_idx)] *)
Definition count_children (rows : list hierarchy_row) (outer_contour_idx : nat) : Z :=
  Z.of_nat (length (filter (fun row => h_parent row =? Z.of_nat outer_contour_idx)%Z rows)).

Definition extract_features `{OpenCV} (glyph_img : ndarray) : option vec :=
  let '(contours, hierarchy) := findContours glyph_img in
  match contours, hierarchy with
  | [], _ | _, None => None
  | _ :: _, Some rows =>
    match first_root 0 (combine contours rows) with
    | None => None
    | Some (outer_contour_idx, outer_contour) =>
      let '(x, y, w, h) := boundingRect outer_contour in
      if ((h =? 0) || (w =? 0))%nat then None
      else
        let aspect_ratio := int_truediv (Z.of_nat w) (Z.of_nat h) in
        let pixel_density :=
          int_truediv (roi_positive glyph_img x y w h)
                      (roi_size glyph_img x y w h) in
        let M := contour_moments outer_contour in
        if feq (m00 M) pos_zero then None
        else
          let cx := f64_div (f64_sub (f64_div (m10 M) (m00 M))
                                     (f64_of_Z (Z.of_nat x)))
                            (f64_of_Z (Z.of_nat w)) in
          let cy := f64_div (f64_sub (f64_div (m01 M) (m00 M))
                                     (f64_of_Z (Z.of_nat y)))
                            (f64_of_Z (Z.of_nat h)) in
          let num_holes := count_children rows outer_contour_idx in
          Some (map to_f32
                    [aspect_ratio; pixel_density; cx; cy; f64_of_Z num_holes])
    end
  end.

(** The inner loop of [main]: the feature vectors of one font. *)
Definition char_features `{OpenCV} `{Renderer} (fp : font_path) : list vec :=
  fold_left
    (fun char_features_list char =>
       match render_char fp char FONT_SIZE CANVAS_SIZE with
       | None => char_features_list
       | Some glyph_img =>
           match extract_features glyph_img with
           | Some features => char_features_list ++ [features]
           | None => char_features_list
           end
       end)
    CHARSET [].

(** [main], from the font list to the dictionary that is pickled (when it
    is not empty). *)
Fixpoint build `{OpenCV} `{Renderer}
    (font_paths : list font_path) (font_database : list (string * vec))
  : result (list (string * vec)) :=
  match font_paths with
  | [] => Ok font_database
  | fp :: rest =>
      match char_features fp with
      | [] => build rest font_database
      | first :: others =>
          mean_vector <- mean_axis0 first others ;;
          build rest (dict_set font_database (name fp) mean_vector)
      end
  end.

Definition main `{OpenCV} `{Renderer} (font_paths : list font_path)
  : result (list (string * vec)) :=
  build font_paths [].

End BuildFontDatabase.

(* ================================================================= *)
(** ** src/fontsnip/matching/font_matcher.py *)

Module FontMatcher.
Import IEEE Python Numpy.

Definition _cosine_similarity (vec1 vec2 : vec) : result float :=
  dot_product <- dot vec1 vec2 ;;
  let norm_vec1 := norm vec1 in
  let norm_vec2 := norm vec2 in
  if feq norm_vec1 pos_zero || feq norm_vec2 pos_zero then Ok pos_zero
  else Ok (f32_div dot_product (f32_mul norm_vec1 norm_vec2)).

(** [lambda item: item[1]] *)
Definition item_score (item : string * float) : float := snd item.

(** The loop over [self.font_database.items()]. *)
Fixpoint score_loop (target_vector : vec) (items : list (string * vec))
    (scores : list (string * float)) : result (list (string * float)) :=
  match items with
  | [] => Ok scores
  | (font_name, db_vector) :: rest =>
      if negb (shape_eqb target_vector db_vector) then
        score_loop target_vector rest scores
      else
        similarity <- _cosine_similarity target_vector db_vector ;;
        score_loop target_vector rest (scores ++ [(font_name, similarity)])
  end.

(** [self.font_database] is [None] when loading failed.  The handler of
    [np.mean] is embedded as it is written, [except (ValueError,
    np.AxisError)]: that rows of unequal lengths raise ValueError and that
    [np.AxisError] exists depend on the version of NumPy, so the properties
    of the ranking are stated for queries that have a mean. *)
Definition find_best_matches
    (font_database : option (list (string * vec)))
    (snip_feature_vectors : list vec) (top_n : Z)
  : result (list (string * float)) :=
  match font_database with
  | None | Some [] => Ok []
  | Some items =>
    match snip_feature_vectors with
    | [] => Ok []
    | first :: rest =>
      match mean_axis0 first rest with
      | Raise _ => Ok []
      | Ok target_vector =>
          scores <- score_loop target_vector items [] ;;
          match scores with
          | [] => Ok []
          | _ => Ok (slice_to (sort_reverse item_score scores) top_n)
          end
      end
    end
  end.

End FontMatcher.

(* ================================================================= *)
(** ** Reference collaborators used to run the code on concrete rasters *)

Module Fixtures.
Import IEEE Python Numpy Cv2 Pillow.

Definition raster (rows : list (list Z)) : ndarray :=
  {| shape := [length rows; length (hd [] rows)];
     item := fun r c => nth c (nth r rows []) 0%Z |}.

Definition height (img : ndarray) : nat := nth 0 (shape img) 0%nat.
Definition width (img : ndarray) : nat := nth 1 (shape img) 0%nat.

(** All (row, column) positions of an image. *)
Definition positions (img : ndarray) : list (nat * nat) :=
  list_prod (seq 0 (height img)) (seq 0 (width img)).

Definition count_nonzero (img : ndarray) : Z :=
  Z.of_nat (length (filter (fun rc => negb (item img (fst rc) (snd rc) =? 0)%Z)
                           (positions img))).

Definition raw_moment (weight : nat -> nat -> Z) (img : ndarray) : Z :=
  fold_left
    (fun acc rc => acc + weight (fst rc) (snd rc) * item img (fst rc) (snd rc))%Z
    (positions img) 0%Z.

(** Raster moments: x is the column, y the row. *)
Definition image_moments (img : ndarray) : moments_t :=
  {| m00 := f64_of_Z (raw_moment (fun _ _ => 1%Z) img);
     m10 := f64_of_Z (raw_moment (fun _ c => Z.of_nat c) img);
     m01 := f64_of_Z (raw_moment (fun r _ => Z.of_nat r) img) |}.

Definition border (img : ndarray) : ndarray :=
  {| shape := [S (S (height img)); S (S (width img))];
     item := fun r c =>
       if ((1 <=? r) && (r <=? height img) && (1 <=? c) && (c <=? width img))%nat
       then item img (r - 1) (c - 1) else 0%Z |}.

(** Closed polygons. *)
Definition edges (c : contour) : list (point * point) :=
  combine c (tl c ++ firstn 1 c).

Definition cross (e : point * point) : Z :=
  (fst (fst e) * snd (snd e) - fst (snd e) * snd (fst e))%Z.

Definition zsum (l : list Z) : Z := fold_left Z.add l 0%Z.

Definition polygon_area (c : contour) : float :=
  int_truediv (Z.abs (zsum (map cross (edges c)))) 2.

Definition polygon_length (c : contour) : float :=
  fold_left
    (fun acc e =>
       let dx := (fst (snd e) - fst (fst e))%Z in
       let dy := (snd (snd e) - snd (fst e))%Z in
       f64_add acc (f64_sqrt (f64_of_Z (dx * dx + dy * dy))))
    (edges c) pos_zero.

Definition polygon_moments (c : contour) : moments_t :=
  let a := zsum (map cross (edges c)) in
  let sx := zsum (map (fun e => cross e * (fst (fst e) + fst (snd e)))%Z (edges c)) in
  let sy := zsum (map (fun e => cross e * (snd (fst e) + snd (snd e)))%Z (edges c)) in
  {| m00 := int_truediv (Z.abs a) 2;
     m10 := int_truediv (Z.sgn a * sx) 6;
     m01 := int_truediv (Z.sgn a * sy) 6 |}.

Definition zmin (l : list Z) : Z := fold_left Z.min (tl l) (hd 0%Z l).
Definition zmax (l : list Z) : Z := fold_left Z.max (tl l) (hd 0%Z l).

Definition bounding_rect (c : contour) : nat * nat * nat * nat :=
  match c with
  | [] => (0, 0, 0, 0)%nat
  | _ =>
      let xs := map fst c in
      let ys := map snd c in
      (Z.to_nat (zmin xs), Z.to_nat (zmin ys),
       Z.to_nat (zmax xs - zmin xs + 1), Z.to_nat (zmax ys - zmin ys + 1))
  end.

(** The contour tracer's answer is tabulated per raster: the contours
    with their hierarchy rows, in discovery order. *)
Definition traced (table : list (contour * hierarchy_row))
  : list contour * option (list hierarchy_row) :=
  match table with
  | [] => ([], None)
  | _ => (map fst table, Some (map snd table))
  end.

Definition traced_rows (table : list (contour * hierarchy_row)) :
  forall cs rows, traced table = (cs, Some rows) -> length rows = length cs.
Proof.
  destruct table as [|cr tbl]; unfold traced; intros cs rows E.
  - discriminate.
  - injection E as <- <-. simpl. now rewrite !length_map.
Qed.

Definition reference_cv (answer : ndarray -> list (contour * hierarchy_row))
  : OpenCV :=
  {| countNonZero := count_nonzero;
     moments := image_moments;
     copyMakeBorder := border;
     findContours := fun img => traced (answer img);
     findContours_rows := fun img => traced_rows (answer img);
     arcLength := polygon_length;
     contourArea := polygon_area;
     boundingRect := bounding_rect;
     contour_moments := polygon_moments |}.

Definition root : hierarchy_row :=
  {| h_next := -1; h_prev := -1; h_first_child := -1; h_parent := -1 |}.

(** [np.zeros((50, 50), dtype=np.uint8)], the empty image of the
    extractor's own test suite. *)
Definition img_empty : ndarray :=
  {| shape := [50; 50]%nat; item := fun _ _ => 0%Z |}.

(** A single white pixel. *)
Definition img_pixel : ndarray := raster [[255%Z]].

(** A zero with a dot in its counter, as monospaced fonts draw it: a ring,
    its hole, and an island inside the hole. *)
Definition img_dotted_zero : ndarray :=
  let o := 0%Z in let X := 255%Z in
  raster [[X; X; X; X; X; X; X];
          [X; o; o; o; o; o; X];
          [X; o; o; o; o; o; X];
          [X; o; o; X; o; o; X];
          [X; o; o; o; o; o; X];
          [X; o; o; o; o; o; X];
          [X; X; X; X; X; X; X]].

(** Its contour tree at offset d (0 in the raster itself, 1 in the padded
    raster): the outer border, the border of the hole, the island. *)
Definition dotted_zero_contours (d : Z) : list (contour * hierarchy_row) :=
  let at_ (x y : Z) : point := (x + d, y + d)%Z in
  [ ([at_ 0 0; at_ 0 6; at_ 6 6; at_ 6 0],
     {| h_next := -1; h_prev := -1; h_first_child := 1; h_parent := -1 |});
    ([at_ 1 0; at_ 0 1; at_ 0 5; at_ 1 6; at_ 5 6; at_ 6 5; at_ 6 1; at_ 5 0],
     {| h_next := -1; h_prev := -1; h_first_child := 2; h_parent := 0 |});
    ([at_ 3 3],
     {| h_next := -1; h_prev := -1; h_first_child := -1; h_parent := 1 |}) ]%Z.

(** A ring ("o"): the outer border and the border of its single hole. *)
Definition ring_contours (d : Z) : list (contour * hierarchy_row) :=
  let at_ (x y : Z) : point := (x + d, y + d)%Z in
  [ ([at_ 0 0; at_ 0 6; at_ 6 6; at_ 6 0],
     {| h_next := -1; h_prev := -1; h_first_child := 1; h_parent := -1 |});
    ([at_ 1 0; at_ 0 1; at_ 0 5; at_ 1 6; at_ 5 6; at_ 6 5; at_ 6 1; at_ 5 0],
     {| h_next := -1; h_prev := -1; h_first_child := -1; h_parent := 0 |}) ]%Z.

Definition img_ring : ndarray :=
  let o := 0%Z in let X := 255%Z in
  raster [[X; X; X; X; X; X; X];
          [X; o; o; o; o; o; X];
          [X; o; o; o; o; o; X];
          [X; o; o; o; o; o; X];
          [X; o; o; o; o; o; X];
          [X; o; o; o; o; o; X];
          [X; X; X; X; X; X; X]].

Definition cv_dotted_zero : OpenCV :=
  reference_cv (fun img =>
    if (height img =? 7)%nat then dotted_zero_contours 0
    else dotted_zero_contours 1).

(** A font that has only the digit zero, drawn as above. *)
Definition only_zero : Renderer :=
  {| render_char := fun _ char _ _ =>
       if Ascii.eqb char "0"%char then Some img_dotted_zero else None |}.

(** The feature vector of [img_pixel], a fingerprint of the builder's
    five fields, and databases made of them. *)
Definition pixel_vector : vec :=
  [f32_one; f32_one; pos_zero; pos_zero; pos_zero; pos_zero; pos_zero].
Definition stale_vector : vec :=
  [f32_one; f32_one; pos_zero; pos_zero; pos_zero].

Definition single_font : list (string * vec) := [("mono.ttf"%string, pixel_vector)].
(** One font installed under two names; "b.ttf" was inserted first. *)
Definition twin_fonts : list (string * vec) :=
  [("b.ttf"%string, pixel_vector); ("a.ttf"%string, pixel_vector)].
Definition mixed_fonts : list (string * vec) :=
  [("a.ttf"%string, pixel_vector); ("old.ttf"%string, stale_vector);
   ("b.ttf"%string, pixel_vector)].

Definition mono_ttf : font_path :=
  {| path := "/usr/share/fonts/mono.ttf"; name := "mono.ttf" |}.

End Fixtures.

(* ================================================================= *)
(** ** Vocabulary of the properties *)

Module Spec.
Import IEEE Python Numpy FontMatcher.

(** Order-preserving sub-list. *)
Inductive subseq {A : Type} : list A -> list A -> Prop :=
| subseq_nil : subseq [] []
| subseq_skip x l1 l2 : subseq l1 l2 -> subseq l1 (x :: l2)
| subseq_take x l1 l2 : subseq l1 l2 -> subseq (x :: l1) (x :: l2).

(** A scored entry whose score equals s. *)
Definition tie (s : float) (p : string * float) : bool :=
  feq (item_score p) s.

(** No entry is followed by one with a larger score. *)
Definition descending (r : list (string * float)) : Prop :=
  LocallySorted (fun a b => flt (item_score a) (item_score b) = false) r.

(** Ties are ordered by ascending font identifier. *)
Definition ties_by_identifier (r : list (string * float)) : Prop :=
  forall i j a b,
    (i < j)%nat -> nth_error r i = Some a -> nth_error r j = Some b ->
    feq (item_score a) (item_score b) = true ->
    String.leb (fst a) (fst b) = true.

(** The database entry can be compared with the target. *)
Definition usable (target : vec) (e : string * vec) : bool :=
  shape_eqb target (snd e).

(** p is the score of database entry e. *)
Definition scored (target : vec) (e : string * vec) (p : string * float) : Prop :=
  fst p = fst e /\ _cosine_similarity target (snd e) = Ok (snd p).

Definition all_finite (v : vec) : Prop := Forall (fun x => is_finite x = true) v.

End Spec.

(* ================================================================= *)
(** ** Vocabulary of the order and the size of a result *)

Module Ranking.
Import IEEE Python Numpy FontMatcher.

(** Python's [<=] on floats. *)
Definition fle : float -> float -> bool := SFleb.

(** Every entry scores at least as much as every later one. *)
Definition non_increasing (r : list (string * float)) : Prop :=
  StronglySorted (fun a b => fle (item_score b) (item_score a) = true) r.

(** The length of [l[:k]] for a list of length n. *)
Definition slice_length (n : nat) (k : Z) : nat :=
  if (0 <=? k)%Z then Nat.min (Z.to_nat k) n else (n - Z.to_nat (- k))%nat.

(** The database has an entry [font_name] with the fingerprint v. *)
Definition has_entry (items : list (string * vec)) (font_name : string) (v : vec)
  : Prop :=
  In (font_name, v) items.

End Ranking.

(* ================================================================= *)
(** ** font_matcher.py: [FontMatcher.__init__] and [_load_database] *)

Module FontMatcherInit.
Import IEEE Python Numpy.

(** What [pickle.load] hands back: a dictionary from font names to
    fingerprints, or some other object. *)
Inductive unpickled :=
| Dict (database : list (string * vec))
| NotADict.

(** What [open(db_path, 'rb')] followed by [pickle.load(f)] does. *)
Inductive load_outcome :=
| FileNotFoundError
| UnpicklingError
| EOFError
| OtherException
| Loaded (obj : unpickled).

(** The file system and the pickle module, as seen from the matcher. *)
Class Storage := { open_and_load : string -> load_outcome }.

Definition _load_database `{Storage} (db_path : string)
  : option (list (string * vec)) :=
  match open_and_load db_path with
  | Loaded (Dict database) =>
      match database with
      | [] => None
      | _ => Some database
      end
  | Loaded NotADict => None
  | FileNotFoundError => None
  | UnpicklingError | EOFError => None
  | OtherException => None
  end.

Record FontMatcher := { font_database : option (list (string * vec)) }.

Definition __init__ `{Storage} (database_path : string) : FontMatcher :=
  {| font_database := _load_database database_path |}.

End FontMatcherInit.


(* ================================================================= *)
(** ** Reading a float as an integer *)

Module Exact.
Import IEEE.

(** The integer a float stands for, when it stands for one. *)
Definition integer_value (x : float) : option Z :=
  match x with
  | S754_zero _ => Some 0%Z
  | S754_finite s m e =>
      if (0 <=? e)%Z then Some (cond_Zopp s (Z.pos m * 2 ^ e))
      else if (Z.pos m mod 2 ^ (- e) =? 0)%Z
           then Some (cond_Zopp s (Z.pos m / 2 ^ (- e)))
           else None
  | S754_infinity _ | S754_nan => None
  end.

(** p followed by k zero bits. *)
Definition widen (p : positive) (k : Z) : positive :=
  match k with
  | Zpos j => Pos.iter xO p j
  | _ => p
  end.

End Exact.

(* ================================================================= *)
(** ** Python dictionaries: lookup *)

Module PyDict.

(** [d.get(key)]: the value stored under [key], [None] when there is none. *)
Fixpoint dict_get {V} (d : list (string * V)) (key : string) : option V :=
  match d with
  | [] => None
  | (k, v) :: rest => if String.eqb k key then Some v else dict_get rest key
  end.

Definition keys {V} (d : list (string * V)) : list string := map fst d.

End PyDict.

(* ================================================================= *)
(** ** scripts/build_font_database.py: [render_char] *)

Module RenderChar.
Import Numpy Pillow.

(** What [render_char] uses of Pillow.  [truetype] is [ImageFont.truetype],
    [None] standing for IOError and OSError; [getbbox] is [font.getbbox],
    [None] standing for TypeError and ValueError; [glyph_pixel font char r c]
    is the pixel in row r, column c of [char_img] after
    [draw.text((-x0, -y0), char, font=font, fill=255)]. *)
Class ImageFont := {
  font : Type;
  truetype : string -> nat -> option font;
  getbbox : font -> ascii -> option (Z * Z * Z * Z);
  glyph_pixel : font -> ascii -> nat -> nat -> Z
}.

(** [canvas.paste(char_img, (paste_x, paste_y))] on a black canvas, read
    as an array: the pixel in row r, column c. *)
Definition pasted (glyph : nat -> nat -> Z) (text_width text_height : Z)
    (paste_x paste_y : Z) (r c : nat) : Z :=
  let gr := (Z.of_nat r - paste_y)%Z in
  let gc := (Z.of_nat c - paste_x)%Z in
  if ((0 <=? gr) && (gr <? text_height) && (0 <=? gc) && (gc <? text_width))%Z
  then glyph (Z.to_nat gr) (Z.to_nat gc)
  else 0%Z.

(** [canvas_size] is (width, height); the array has shape (height, width). *)
Definition render_char `{ImageFont} (font_path : font_path) (char : ascii)
    (font_size : nat) (canvas_size : nat * nat) : option ndarray :=
  match truetype (path font_path) font_size with
  | None => None
  | Some font =>
    match getbbox font char with
    | None => None
    | Some (x0, y0, x1, y1) =>
      let text_width := (x1 - x0)%Z in
      let text_height := (y1 - y0)%Z in
      if ((text_width <=? 0) || (text_height <=? 0))%Z then None
      else
        let paste_x := ((Z.of_nat (fst canvas_size) - text_width) / 2)%Z in
        let paste_y := ((Z.of_nat (snd canvas_size) - text_height) / 2)%Z in
        Some {| shape := [snd canvas_size; fst canvas_size];
                item := pasted (glyph_pixel font char) text_width text_height
                               paste_x paste_y |}
    end
  end.

(** The renderer the builder runs with. *)
Definition pillow `{ImageFont} : Renderer := {| Pillow.render_char := render_char |}.

End RenderChar.

(* ================================================================= *)
(** ** src/fontsnip/app_logic/state_machine.py: the handlers of [StateMachine] *)

Module StateMachine.
Import Python Numpy.

Inductive AppState := IDLE | CAPTURING | PROCESSING | DISPLAYING_RESULTS.

Definition AppState_eqb (a b : AppState) : bool :=
  match a, b with
  | IDLE, IDLE | CAPTURING, CAPTURING | PROCESSING, PROCESSING
  | DISPLAYING_RESULTS, DISPLAYING_RESULTS => true
  | _, _ => false
  end.

(** What a handler does to its collaborators: the signal it emits, the
    calls on the overlay, the results window, the worker thread and the
    clipboard.  [worker_start] is the creation of a [ProcessingWorker] on
    its own [QThread] and the start of that thread. *)
Inductive action :=
| emit_error_occurred (msg : string)
| overlay_start_capture
| overlay_close
| results_close
| thread_quit_and_wait
| worker_start (image_array : ndarray)
| clipboard_copy (text : string)
| display_results (matches : list (string * IEEE.float)).

(** What a handler reads from Qt and pyperclip while it runs:
    [isVisible()] of the two windows, [isRunning()] of the worker thread,
    and the PyperclipException of [pyperclip.copy], if it raises one. *)
Record observed := {
  overlay_visible : bool;
  results_visible : bool;
  thread_running : bool;
  clipboard_failure : option string
}.

(** [_worker] stands for [self._worker_thread] and [self._worker], which
    are set and reset together. *)
Record machine := {
  _state : AppState;
  _font_database : option (list (string * vec));
  _worker : bool
}.

(** [not self._font_database] *)
Definition no_database (m : machine) : bool :=
  match _font_database m with
  | None | Some [] => true
  | Some (_ :: _) => false
  end.

Definition __init__ (loaded : option (list (string * vec))) : machine :=
  {| _state := IDLE; _font_database := loaded; _worker := false |}.

Definition _set_state (m : machine) (new_state : AppState) : machine :=
  {| _state := new_state;
     _font_database := _font_database m;
     _worker := _worker m |}.

Definition start_capture (m : machine) : machine * list action :=
  if negb (AppState_eqb (_state m) IDLE) then (m, [])
  else if no_database m
       then (m, [emit_error_occurred "Font database is missing. Cannot proceed."])
       else (_set_state m CAPTURING, [overlay_start_capture]).

Definition _on_image_captured (m : machine) (image_array : ndarray)
  : machine * list action :=
  if negb (AppState_eqb (_state m) CAPTURING) then (m, [])
  else
    ({| _state := PROCESSING;
        _font_database := _font_database m;
        _worker := true |},
     [worker_start image_array]).

Definition _return_to_idle (m : machine) (o : observed) : machine * list action :=
  ({| _state := IDLE; _font_database := _font_database m; _worker := false |},
   (if overlay_visible o then [overlay_close] else [])
   ++ (if results_visible o then [results_close] else [])
   ++ (if _worker m && thread_running o then [thread_quit_and_wait] else [])).

Definition _on_processing_finished (m : machine)
    (matches : list (string * IEEE.float)) (o : observed)
  : machine * list action :=
  let m := _set_state m DISPLAYING_RESULTS in
  match matches with
  | [] => _return_to_idle m o
  | (top_match_name, _) :: _ =>
      (m,
       [clipboard_copy top_match_name]
       ++ match clipboard_failure o with
          | Some e => [emit_error_occurred ("Could not copy to clipboard: " ++ e)]
          | None => []
          end
       ++ [display_results matches])
  end.

Definition _on_processing_error (m : machine) (error_message : string)
    (o : observed) : machine * list action :=
  let '(m', actions) := _return_to_idle m o in
  (m', emit_error_occurred error_message :: actions).

(** The signals that reach the state machine. *)
Inductive signal :=
| hotkey
| image_captured (image_array : ndarray)
| capture_cancelled
| results_closed
| worker_finished (matches : list (string * IEEE.float))
| worker_error (error_message : string).

(** [__init__] connects the slots only when the database was loaded; the
    hotkey calls [start_capture] in either case. *)
Definition deliver (m : machine) (s : signal) (o : observed)
  : machine * list action :=
  match s with
  | hotkey => start_capture m
  | _ =>
    if no_database m then (m, [])
    else
      match s with
      | hotkey => start_capture m
      | image_captured image_array => _on_image_captured m image_array
      | capture_cancelled | results_closed => _return_to_idle m o
      | worker_finished matches => _on_processing_finished m matches o
      | worker_error error_message => _on_processing_error m error_message o
      end
  end.

(** A run: the signals in order, each with what the handler observes. *)
Fixpoint run (m : machine) (signals : list (signal * observed))
  : machine * list action :=
  match signals with
  | [] => (m, [])
  | (s, o) :: rest =>
      let '(m1, a1) := deliver m s o in
      let '(m2, a2) := run m1 rest in
      (m2, a1 ++ a2)
  end.

Definition is_worker_start (a : action) : bool :=
  match a with worker_start _ => true | _ => false end.

Definition is_overlay_start (a : action) : bool :=
  match a with overlay_start_capture => true | _ => false end.

Definition is_error (a : action) : bool :=
  match a with emit_error_occurred _ => true | _ => false end.

(** 1 while a capture is open (the overlay is up, no image yet), else 0. *)
Definition open_captures (m : machine) : nat :=
  if AppState_eqb (_state m) CAPTURING then 1%nat else 0%nat.

Definition workers_started (actions : list action) : nat :=
  length (filter is_worker_start actions).

Definition captures_started (actions : list action) : nat :=
  length (filter is_overlay_start actions).

End StateMachine.

(* ================================================================= *)
(** ** src/fontsnip/ui/results_window.py: [_get_adjusted_position] *)

Module ResultsWindow.



End ResultsWindow.

(* ================================================================= *)
(** ** More sample data *)

Module Samples.
Import IEEE Python Numpy Cv2 Pillow.

(** The feature vector of an all-background image of equal sides. *)
Definition blank_vector : vec :=
  [f32_one; pos_zero; pos_zero; pos_zero; pos_zero; pos_zero; pos_zero].

(** Two fonts of different fingerprints; the second is the better match
    for [Fixtures.pixel_vector]. *)
Definition two_fonts : list (string * vec) :=
  [("far.ttf"%string, blank_vector); ("near.ttf"%string, Fixtures.pixel_vector)].

(** Three fonts, two of them with one fingerprint; "b.ttf" was inserted
    before "a.ttf". *)
Definition three_fonts : list (string * vec) :=
  [("b.ttf"%string, Fixtures.pixel_vector); ("far.ttf"%string, blank_vector);
   ("a.ttf"%string, Fixtures.pixel_vector)].

(** The builder's vector of [Fixtures.img_dotted_zero]. *)
Definition dotted_zero_vector : vec :=
  [ f32_one;
    S754_finite false 8559804 (-24);
    S754_finite false 14380471 (-25);
    S754_finite false 14380471 (-25);
    f32_one ].

(** A second file of the name "mono.ttf", in another directory, and a font
    file of which no glyph can be rendered. *)
Definition mono_copy : font_path :=
  {| path := "/home/user/.fonts/mono.ttf"; name := "mono.ttf" |}.

(** A renderer that knows "mono.ttf" only. *)
Definition only_mono : Renderer :=
  {| render_char := fun fp char _ _ =>
       if String.eqb (name fp) "mono.ttf" && Ascii.eqb char "0"%char
       then Some Fixtures.img_dotted_zero else None |}.

Definition symbols_ttf : font_path :=
  {| path := "/usr/share/fonts/symbols.ttf"; name := "symbols.ttf" |}.

(** A font whose every glyph has the ink box (2, 3)-(7, 12) and is solid. *)
Definition solid_font : RenderChar.ImageFont :=
  {| RenderChar.font := unit;
     RenderChar.truetype := fun p _ => if String.eqb p "" then None else Some tt;
     RenderChar.getbbox := fun _ _ => Some (2, 3, 7, 12)%Z;
     RenderChar.glyph_pixel := fun _ _ _ _ => 255%Z |}.

(** What Qt shows at rest, and a capture that runs to its results. *)
Definition at_rest : StateMachine.observed :=
  {| StateMachine.overlay_visible := false;
     StateMachine.results_visible := false;
     StateMachine.thread_running := false;
     StateMachine.clipboard_failure := None |}.

Definition capture_run : list (StateMachine.signal * StateMachine.observed) :=
  [(StateMachine.hotkey, at_rest);
   (StateMachine.image_captured Fixtures.img_pixel, at_rest);
   (StateMachine.worker_finished [("mono.ttf"%string, f32_above_one)], at_rest)].


End Samples.

(* ================================================================= *)
(** * Properties *)

Import IEEE Python Numpy Cv2 Pillow FontMatcher Spec Ranking.

(** ** Rounding never turns a positive mantissa into zero or NaN *)

Section Rounding.

Lemma digits2_pos_size (p : positive) : digits2_pos p = Pos.size p.
Proof. induction p; simpl; congruence. Qed.

Lemma digits2_lower (p : positive) :
  (2 ^ (Z.pos (digits2_pos p) - 1) <= Z.pos p)%Z.
Proof.
  rewrite digits2_pos_size.
  pose proof (Pos.size_le p) as H.
  apply Pos2Z.pos_le_pos in H.
  rewrite Pos2Z.inj_pow in H.
  change (Z.pos p~0) with (2 * Z.pos p)%Z in H.
  replace (Z.pos (Pos.size p)) with (Z.succ (Z.pos (Pos.size p) - 1))%Z in H by lia.
  rewrite Z.pow_succ_r in H by lia.
  lia.
Qed.

Lemma shr_1_m (r : shr_record) :
  (0 <= shr_m r)%Z -> shr_m (shr_1 r) = (shr_m r / 2)%Z.
Proof.
  destruct r as [m r s]; simpl; intros Hm.
  rewrite <- Z.div2_div.
  destruct m as [|[p|p|]|p]; simpl; try reflexivity; lia.
Qed.

Lemma iter_shr_1_m (q : positive) :
  forall r, (0 <= shr_m r)%Z ->
            shr_m (iter_pos shr_1 q r) = (shr_m r / 2 ^ Z.pos q)%Z.
Proof.
  induction q as [q IH|q IH|]; intros r Hr; cbn [iter_pos].
  - assert (H1 : (0 <= shr_m (shr_1 r))%Z)
      by (rewrite shr_1_m by assumption; apply Z.div_pos; lia).
    assert (H2 : (0 <= shr_m (iter_pos shr_1 q (shr_1 r)))%Z)
      by (rewrite IH by assumption; apply Z.div_pos; lia).
    rewrite IH, IH, shr_1_m by assumption.
    rewrite !Z.div_div by lia.
    f_equal. change (Z.pos q~1) with (2 * Z.pos q + 1)%Z.
    replace (2 * Z.pos q + 1)%Z with (1 + Z.pos q + Z.pos q)%Z by lia.
    rewrite !Z.pow_add_r by lia. lia.
  - assert (H2 : (0 <= shr_m (iter_pos shr_1 q r))%Z)
      by (rewrite IH by assumption; apply Z.div_pos; lia).
    rewrite IH, IH by assumption.
    rewrite Z.div_div by lia.
    f_equal. change (Z.pos q~0) with (2 * Z.pos q)%Z.
    replace (2 * Z.pos q)%Z with (Z.pos q + Z.pos q)%Z by lia.
    rewrite Z.pow_add_r by lia. lia.
  - rewrite shr_1_m by assumption. reflexivity.
Qed.

(** Shifting out fewer bits than the mantissa has leaves it positive. *)
Lemma shr_keeps_positive (r : shr_record) (e n : Z) :
  (0 < shr_m r)%Z -> (n < Zdigits2 (shr_m r))%Z ->
  (0 < shr_m (fst (shr r e n)))%Z /\ (e <= snd (shr r e n))%Z.
Proof.
  intros Hm Hn. destruct n as [|q|q]; simpl; try (split; lia).
  split; [|lia].
  rewrite iter_shr_1_m by lia.
  destruct (shr_m r) as [|p|p] eqn:E; try lia.
  simpl in Hn.
  apply Z.div_str_pos. split; [lia|].
  apply Z.le_trans with (2 ^ (Z.pos (digits2_pos p) - 1))%Z.
  - apply Z.pow_le_mono_r; lia.
  - apply digits2_lower.
Qed.

Lemma fexp_shift_small (prec emax d e : Z) :
  (0 < prec)%Z -> (0 < d)%Z -> (emin prec emax <= e)%Z ->
  (fexp prec emax (d + e) - e < d)%Z.
Proof. unfold fexp. lia. Qed.

Lemma round_nearest_even_ge (m : Z) (l : location) :
  (m <= round_nearest_even m l)%Z.
Proof.
  destruct l as [|[]]; simpl; try lia.
  destruct (Z.even m); lia.
Qed.

Lemma Zdigits2_pos (m : Z) : (0 < m)%Z -> (0 < Zdigits2 m)%Z.
Proof. destruct m; simpl; lia. Qed.

Lemma shr_fexp_positive (prec emax m e : Z) (l : location) :
  (0 < prec)%Z -> (0 < m)%Z -> (emin prec emax <= e)%Z ->
  (0 < shr_m (fst (shr_fexp prec emax m e l)))%Z /\
  (emin prec emax <= snd (shr_fexp prec emax m e l))%Z.
Proof.
  intros Hp Hm He. unfold shr_fexp.
  assert (E : shr_m (shr_record_of_loc m l) = m)
    by (destruct l as [|[]]; reflexivity).
  destruct (shr_keeps_positive (shr_record_of_loc m l) e
              (fexp prec emax (Zdigits2 m + e) - e)%Z) as [H1 H2].
  - rewrite E. exact Hm.
  - rewrite E. apply fexp_shift_small; auto using Zdigits2_pos.
  - split; [exact H1 | lia].
Qed.

(** Rounding a positive mantissa gives a finite non-zero number or an
    infinity, of the sign asked for. *)
Lemma binary_round_aux_positive (prec emax : Z) (m : positive) (e : Z)
      (l : location) :
  (0 < prec)%Z -> (emin prec emax <= e)%Z ->
  is_positive (binary_round_aux prec emax false (Z.pos m) e l) = true.
Proof.
  intros Hp He. unfold binary_round_aux.
  destruct (shr_fexp_positive prec emax (Z.pos m) e l Hp) as [H1 H2];
    [lia | exact He |].
  destruct (shr_fexp prec emax (Z.pos m) e l) as [r1 e1]; simpl in H1, H2.
  pose proof (round_nearest_even_ge (shr_m r1) (loc_of_shr_record r1)) as Hr.
  destruct (shr_fexp_positive prec emax
              (round_nearest_even (shr_m r1) (loc_of_shr_record r1)) e1
              loc_Exact Hp) as [H3 H4]; [lia | exact H2 |].
  destruct (shr_fexp prec emax _ e1 loc_Exact) as [r2 e2]; simpl in H3, H4.
  destruct (shr_m r2); try lia.
  now destruct (e2 <=? emax - prec)%Z.
Qed.

Lemma shl_align_exponent (prec emax : Z) (m : positive) (e : Z) :
  (emin prec emax <= e)%Z ->
  (emin prec emax <=
     snd (shl_align m e (fexp prec emax (Z.pos (digits2_pos m) + e))))%Z.
Proof.
  intros He. unfold shl_align.
  destruct (fexp prec emax (Z.pos (digits2_pos m) + e) - e)%Z eqn:E; simpl;
    try exact He.
  unfold fexp. lia.
Qed.

Lemma binary_normalize_positive (prec emax : Z) (p : positive) :
  (0 < prec)%Z -> (emin prec emax <= 0)%Z ->
  is_positive (binary_normalize prec emax (Z.pos p) 0 false) = true.
Proof.
  intros Hp He. unfold binary_normalize, binary_round.
  pose proof (shl_align_exponent prec emax p 0 He) as H.
  destruct (shl_align p 0 _) as [mz ez]; simpl in H.
  now apply binary_round_aux_positive.
Qed.

Lemma f32_of_Z_positive (n : Z) : (0 < n)%Z -> is_positive (f32_of_Z n) = true.
Proof.
  intros Hn. destruct n as [|p|p]; try lia.
  apply binary_normalize_positive; [reflexivity | discriminate].
Qed.

Lemma f32_div_zero_positive (x : float) :
  is_positive x = true -> f32_div pos_zero x = pos_zero.
Proof.
  destruct x as [s|s| |s m e]; try destruct s; simpl; intros H;
    try discriminate H; reflexivity.
Qed.

End Rounding.

(** ** Comparison of floats *)

Section Comparison.

Lemma SFcompare_Eq_inv (a b : float) :
  SFcompare a b = Some Eq ->
  (exists s s', a = S754_zero s /\ b = S754_zero s') \/ a = b.
Proof.
  destruct a as [s1|s1| |s1 m1 e1], b as [s2|s2| |s2 m2 e2]; simpl;
    try discriminate; try (destruct s1; discriminate);
    try (destruct s2; discriminate).
  - intros _. left. eauto.
  - destruct s1, s2; intros H; try discriminate; now right.
  - intros H. right.
    destruct s1, s2; try discriminate;
      destruct (Z.compare_spec e1 e2) as [->| |]; try discriminate;
      injection H as H.
    + apply CompOpp_iff in H. simpl in H.
      apply Pos.compare_eq in H. now subst.
    + apply Pos.compare_eq in H. now subst.
Qed.

Lemma SFcompare_refl (a : float) : SFcompare a a <> Some Lt.
Proof.
  destruct a as [s|s| |s m e]; simpl; try discriminate.
  - destruct s; discriminate.
  - destruct s; rewrite Z.compare_refl;
      change (Pos.compare_cont Eq m m) with (Pos.compare m m);
      rewrite Pos.compare_refl; discriminate.
Qed.

Lemma flt_irrefl (a : float) : flt a a = false.
Proof.
  unfold flt, SFltb. pose proof (SFcompare_refl a).
  destruct (SFcompare a a) as [[]|]; congruence.
Qed.

Lemma feq_true (a b : float) : feq a b = true -> SFcompare a b = Some Eq.
Proof. unfold feq, SFeqb. destruct (SFcompare a b) as [[]|]; congruence. Qed.

(** Two scores equal to a third one do not compare as smaller. *)
Lemma tied_not_smaller (a b s : float) :
  feq a s = true -> feq b s = true -> flt a b = false.
Proof.
  intros Ha Hb. apply feq_true, SFcompare_Eq_inv in Ha.
  apply feq_true, SFcompare_Eq_inv in Hb.
  destruct Ha as [(s1 & s2 & -> & ->)| ->], Hb as [(s3 & s4 & -> & E)| ->];
    try reflexivity; try apply flt_irrefl.
  inversion E. reflexivity.
Qed.

Lemma SFcompare_Lt_Gt (a b : float) :
  SFcompare a b = Some Lt -> SFcompare b a = Some Gt.
Proof.
  destruct a as [s1|s1| |s1 m1 e1], b as [s2|s2| |s2 m2 e2]; simpl;
    try discriminate;
    try (destruct s1; try discriminate; reflexivity);
    try (destruct s2; try discriminate; reflexivity).
  - destruct s1, s2; try discriminate; reflexivity.
  - destruct s1, s2; try discriminate; try reflexivity;
      rewrite (Z.compare_antisym e1 e2);
      destruct (e1 ?= e2)%Z; simpl; try discriminate; try reflexivity;
      change (Pos.compare_cont Eq m1 m2) with (Pos.compare m1 m2);
      change (Pos.compare_cont Eq m2 m1) with (Pos.compare m2 m1);
      rewrite (Pos.compare_antisym m1 m2);
      destruct (m1 ?= m2)%positive; simpl; try discriminate; reflexivity.
Qed.

Lemma flt_asym (a b : float) : flt a b = true -> flt b a = false.
Proof.
  unfold flt, SFltb. intros H.
  destruct (SFcompare a b) as [[]|] eqn:E; try discriminate.
  now rewrite (SFcompare_Lt_Gt _ _ E).
Qed.

End Comparison.

(** ** The order of floats that are not NaN *)

Section FloatOrder.

Ltac compare_cases :=
  repeat match goal with
         | H : context [(?a ?= ?b)%Z] |- _ => destruct (Z.compare_spec a b)
         | |- context [(?a ?= ?b)%Z] => destruct (Z.compare_spec a b)
         | H : context [Pos.compare_cont Eq ?a ?b] |- _ =>
             change (Pos.compare_cont Eq a b) with (Pos.compare a b) in H
         | |- context [Pos.compare_cont Eq ?a ?b] =>
             change (Pos.compare_cont Eq a b) with (Pos.compare a b)
         | H : context [(?a ?= ?b)%positive] |- _ => destruct (Pos.compare_spec a b)
         | |- context [(?a ?= ?b)%positive] => destruct (Pos.compare_spec a b)
         end.

Lemma fle_refl (a : float) : is_nan a = false -> fle a a = true.
Proof.
  unfold fle, SFleb.
  destruct a as [s|s| |s m e]; simpl; try discriminate; intros _;
    try destruct s; try reflexivity; compare_cases; simpl; try reflexivity; lia.
Qed.

Lemma fle_trans (a b c : float) :
  fle a b = true -> fle b c = true -> fle a c = true.
Proof.
  unfold fle, SFleb.
  destruct a as [s1|s1| |s1 m1 e1], b as [s2|s2| |s2 m2 e2],
           c as [s3|s3| |s3 m3 e3]; simpl; try discriminate;
    try destruct s1; try destruct s2; try destruct s3; simpl;
    try discriminate; try reflexivity;
    compare_cases; simpl; try discriminate; try reflexivity; lia.
Qed.

(** On floats that are not NaN, "not smaller" is "greater or equal". *)
Lemma not_flt_fle (a b : float) :
  is_nan a = false -> is_nan b = false -> flt a b = false -> fle b a = true.
Proof.
  unfold flt, SFltb, fle, SFleb.
  destruct a as [s1|s1| |s1 m1 e1], b as [s2|s2| |s2 m2 e2]; simpl;
    try discriminate; intros _ _;
    try destruct s1; try destruct s2; simpl; try discriminate; try reflexivity;
    compare_cases; simpl; try discriminate; try reflexivity; lia.
Qed.

End FloatOrder.

(** ** Order-preserving sub-lists *)

Section Subseq.
Context {A B : Type}.

Lemma subseq_refl (l : list A) : subseq l l.
Proof. induction l; constructor; assumption. Qed.

Lemma subseq_nil_l (l : list A) : subseq [] l.
Proof. induction l; constructor; assumption. Qed.

Lemma subseq_trans (l1 l2 l3 : list A) :
  subseq l1 l2 -> subseq l2 l3 -> subseq l1 l3.
Proof.
  intros H12 H23. revert l1 H12.
  induction H23 as [|x l2 l3 H23 IH|x l2 l3 H23 IH]; intros l1 H12.
  - exact H12.
  - constructor. now apply IH.
  - inversion H12; subst.
    + constructor. now apply IH.
    + apply subseq_take. now apply IH.
Qed.

Lemma subseq_filter (f : A -> bool) (l : list A) : subseq (filter f l) l.
Proof.
  induction l as [|x l IH]; simpl; [constructor|].
  destruct (f x); constructor; assumption.
Qed.

Lemma subseq_firstn (n : nat) (l : list A) : subseq (firstn n l) l.
Proof.
  revert l. induction n as [|n IH]; intros [|x l]; simpl.
  - constructor.
  - apply subseq_nil_l.
  - constructor.
  - apply subseq_take, IH.
Qed.

Lemma subseq_map (g : A -> B) (l1 l2 : list A) :
  subseq l1 l2 -> subseq (map g l1) (map g l2).
Proof. induction 1; simpl; constructor; assumption. Qed.

End Subseq.

(** ** [list.sort(key=..., reverse=True)] *)

Section SortReverse.

Lemma insert_reverse_ties (s : float) (x : string * float) (l : list (string * float)) :
  filter (tie s) (insert_reverse item_score x l) = filter (tie s) (x :: l).
Proof.
  induction l as [|y ys IH]; [reflexivity|].
  cbn [insert_reverse].
  destruct (flt (item_score x) (item_score y)) eqn:E; [|reflexivity].
  cbn [filter] in *. rewrite IH.
  destruct (tie s x) eqn:Ex, (tie s y) eqn:Ey; try reflexivity.
  unfold tie in Ex, Ey.
  rewrite (tied_not_smaller _ _ _ Ex Ey) in E. discriminate.
Qed.

(** The sort is stable: entries with equal scores keep their order. *)
Lemma sort_reverse_stable (s : float) (l : list (string * float)) :
  filter (tie s) (sort_reverse item_score l) = filter (tie s) l.
Proof.
  induction l as [|x xs IH]; [reflexivity|].
  cbn [sort_reverse]. rewrite insert_reverse_ties.
  cbn [filter]. now rewrite IH.
Qed.

Lemma insert_reverse_descending (x : string * float) (l : list (string * float)) :
  descending l -> descending (insert_reverse item_score x l).
Proof.
  unfold descending. intros H.
  induction H as [|y|y z l H IH Hyz]; cbn [insert_reverse].
  - constructor.
  - destruct (flt (item_score x) (item_score y)) eqn:E; repeat constructor; auto.
    now apply flt_asym.
  - destruct (flt (item_score x) (item_score y)) eqn:E.
    + cbn [insert_reverse] in IH.
      destruct (flt (item_score x) (item_score z)) eqn:E'; constructor; auto.
      now apply flt_asym.
    + repeat constructor; auto.
Qed.

Lemma sort_reverse_descending (l : list (string * float)) :
  descending (sort_reverse item_score l).
Proof.
  induction l as [|x xs IH]; cbn [sort_reverse].
  - constructor.
  - now apply insert_reverse_descending.
Qed.

Lemma descending_firstn (n : nat) (l : list (string * float)) :
  descending l -> descending (firstn n l).
Proof.
  unfold descending. intros H. revert n.
  induction H as [|y|y z l H IH Hyz]; intros [|[|n]]; simpl;
    try constructor; auto.
  apply (IH (S n)).
Qed.

(** With equal keys throughout the sort changes nothing. *)
Lemma sort_reverse_constant (s : float) (l : list (string * float)) :
  Forall (fun p => item_score p = s) l -> sort_reverse item_score l = l.
Proof.
  induction 1 as [|x xs Hx Hxs IH]; [reflexivity|].
  cbn [sort_reverse]. rewrite IH.
  destruct Hxs as [|y ys Hy Hys]; [reflexivity|].
  cbn [insert_reverse]. rewrite Hx, Hy, flt_irrefl. reflexivity.
Qed.

Lemma slice_to_firstn {T : Type} (l : list T) (k : Z) :
  exists n, slice_to l k = firstn n l.
Proof. unfold slice_to. destruct (0 <=? k)%Z; eauto. Qed.

Lemma insert_reverse_perm (x : string * float) (l : list (string * float)) :
  Permutation (insert_reverse item_score x l) (x :: l).
Proof.
  induction l as [|y ys IH]; cbn [insert_reverse]; [reflexivity|].
  destruct (flt (item_score x) (item_score y)); [|reflexivity].
  rewrite IH. apply perm_swap.
Qed.

(** The sort neither drops nor invents an entry. *)
Lemma sort_reverse_perm (l : list (string * float)) :
  Permutation (sort_reverse item_score l) l.
Proof.
  induction l as [|x xs IH]; cbn [sort_reverse]; [reflexivity|].
  rewrite insert_reverse_perm. now constructor.
Qed.

Lemma descending_head_is_largest (x : string * float) (l : list (string * float)) :
  descending (x :: l) ->
  Forall (fun p => is_nan (item_score p) = false) (x :: l) ->
  Forall (fun p => fle (item_score p) (item_score x) = true) l.
Proof.
  revert x. induction l as [|y l IH]; intros x Hd Hn; [constructor|].
  inversion Hd as [| |? ? ? Hd' Hxy]; subst.
  inversion Hn as [|? ? Hx Hn']; subst.
  inversion Hn' as [|? ? Hy _]; subst.
  assert (Hyx : fle (item_score y) (item_score x) = true)
    by now apply not_flt_fle.
  constructor; [exact Hyx|].
  eapply Forall_impl; [|exact (IH y Hd' Hn')].
  intros p Hp. cbv beta in Hp. eapply fle_trans; eassumption.
Qed.

(** Without NaN among the scores a descending list is non-increasing:
    every entry scores at least as much as every later one. *)
Lemma descending_non_increasing (l : list (string * float)) :
  descending l ->
  Forall (fun p => is_nan (item_score p) = false) l ->
  non_increasing l.
Proof.
  induction l as [|x l IH]; intros Hd Hn; [constructor|].
  constructor.
  - apply IH.
    + inversion Hd; subst; [constructor | assumption].
    + inversion Hn; assumption.
  - exact (descending_head_is_largest x l Hd Hn).
Qed.

End SortReverse.

(** ** The matcher *)

Section Matcher.

Lemma firstn_Forall {T : Type} (P : T -> Prop) (n : nat) (l : list T) :
  Forall P l -> Forall P (firstn n l).
Proof.
  intros H. revert n.
  induction H as [|x l Hx _ IH]; intros [|n]; simpl; constructor; auto.
Qed.

Lemma slice_to_nil {T : Type} (k : Z) : slice_to (@nil T) k = [].
Proof. unfold slice_to. destruct (0 <=? k)%Z; apply firstn_nil. Qed.

Lemma subseq_filter_mono {T : Type} (f : T -> bool) (l1 l2 : list T) :
  subseq l1 l2 -> subseq (filter f l1) (filter f l2).
Proof.
  induction 1 as [|x l1 l2 H IH|x l1 l2 H IH]; simpl.
  - constructor.
  - destruct (f x); [constructor|]; assumption.
  - destruct (f x); [constructor|]; assumption.
Qed.

(** The shape guard keeps [np.dot] from raising. *)
Lemma cosine_similarity_defined (target v : vec) :
  shape_eqb target v = true -> exists s, _cosine_similarity target v = Ok s.
Proof.
  intros E. unfold _cosine_similarity, dot. rewrite E. cbn [bind].
  destruct (feq (norm target) pos_zero || feq (norm v) pos_zero); eauto.
Qed.

(** [_cosine_similarity] answers 0.0 as soon as one norm is zero. *)
Lemma cosine_similarity_zero_norm (vec1 vec2 : vec) :
  shape_eqb vec1 vec2 = true ->
  feq (norm vec1) pos_zero = true \/ feq (norm vec2) pos_zero = true ->
  _cosine_similarity vec1 vec2 = Ok pos_zero.
Proof.
  intros E H. unfold _cosine_similarity, dot. rewrite E. cbn [bind].
  destruct H as [-> | ->]; [reflexivity|].
  now rewrite orb_true_r.
Qed.

Lemma score_loop_spec (target : vec) (items : list (string * vec)) :
  forall acc, exists scores,
    Forall2 (scored target) (filter (usable target) items) scores /\
    score_loop target items acc = Ok (acc ++ scores).
Proof.
  induction items as [|[font_name db_vector] rest IH]; intros acc;
    cbn [score_loop filter].
  - exists []. rewrite app_nil_r. split; constructor.
  - unfold usable at 1. cbn [snd].
    destruct (shape_eqb target db_vector) eqn:E; cbn [negb].
    + destruct (cosine_similarity_defined _ _ E) as [s Hs].
      rewrite Hs. cbn [bind].
      destruct (IH (acc ++ [(font_name, s)])) as (scores & HF & Hl).
      exists ((font_name, s) :: scores). split.
      * constructor; [split; [reflexivity | exact Hs] | exact HF].
      * rewrite Hl, <- app_assoc. reflexivity.
    + apply IH.
Qed.

Lemma scored_names (target : vec) (es : list (string * vec))
      (scores : list (string * float)) :
  Forall2 (scored target) es scores -> map fst scores = map fst es.
Proof.
  induction 1 as [|e p es ps [Hn _] _ IH]; simpl; [reflexivity|].
  now rewrite Hn, IH.
Qed.

Lemma find_best_matches_scores
      (items : list (string * vec)) (first : vec) (rest : list vec)
      (top_n : Z) (target : vec) :
  mean_axis0 first rest = Ok target ->
  exists scores,
    Forall2 (scored target) (filter (usable target) items) scores /\
    find_best_matches (Some items) (first :: rest) top_n
    = Ok (slice_to (sort_reverse item_score scores) top_n).
Proof.
  intros Hm. destruct items as [|e items].
  - exists []. split; [constructor|].
    cbn [sort_reverse]. now rewrite slice_to_nil.
  - cbn [find_best_matches]. rewrite Hm.
    destruct (score_loop_spec target (e :: items) []) as (scores & HF & ->).
    exists scores. split; [exact HF|].
    cbn [bind app].
    destruct scores; [cbn [sort_reverse]; now rewrite slice_to_nil | reflexivity].
Qed.

(** *** A query of zero vectors *)

Lemma vadd_zeros (d : nat) : vadd (zeros d) (zeros d) = zeros d.
Proof.
  induction d as [|d IH]; [reflexivity|].
  unfold vadd, zeros in *. cbn [repeat combine map]. now rewrite IH.
Qed.

Lemma sum_zeros (d : nat) (rest : list vec) :
  Forall (fun v => v = zeros d) rest -> fold_left vadd rest (zeros d) = zeros d.
Proof.
  induction 1 as [|v rest -> _ IH]; [reflexivity|].
  simpl. now rewrite vadd_zeros.
Qed.

Lemma div_zeros (d : nat) (count : float) :
  f32_div pos_zero count = pos_zero ->
  map (fun s => f32_div s count) (zeros d) = zeros d.
Proof.
  intros Hc. unfold zeros. induction d as [|d IH]; [reflexivity|].
  cbn [repeat map]. now rewrite Hc, IH.
Qed.

Lemma mean_zeros (d : nat) (rest : list vec) :
  Forall (fun v => v = zeros d) rest -> mean_axis0 (zeros d) rest = Ok (zeros d).
Proof.
  intros H. unfold mean_axis0.
  assert (E : forallb (shape_eqb (zeros d)) rest = true).
  { apply forallb_forall. intros v Hv.
    rewrite Forall_forall in H. rewrite (H v Hv).
    apply Nat.eqb_refl. }
  rewrite E, sum_zeros by exact H. f_equal.
  apply div_zeros, f32_div_zero_positive, f32_of_Z_positive. lia.
Qed.

Lemma norm_zeros (d : nat) : norm (zeros d) = pos_zero.
Proof.
  unfold norm, zeros.
  assert (E : fold_left (fun acc x => f32_add acc (f32_mul x x))
                        (repeat pos_zero d) pos_zero = pos_zero)
    by (induction d as [|d IH]; [reflexivity | exact IH]).
  now rewrite E.
Qed.

Lemma score_loop_zero_target (d : nat) (items : list (string * vec)) :
  Forall (fun e => length (snd e) = d) items ->
  forall acc,
    score_loop (zeros d) items acc
    = Ok (acc ++ map (fun e => (fst e, pos_zero)) items).
Proof.
  induction 1 as [|[font_name db_vector] rest Hd _ IH]; intros acc;
    cbn [score_loop map].
  - now rewrite app_nil_r.
  - cbn [snd fst] in *.
    assert (E : shape_eqb (zeros d) db_vector = true)
      by (unfold shape_eqb, zeros; rewrite repeat_length, Hd; apply Nat.eqb_refl).
    rewrite E. cbn [negb].
    rewrite cosine_similarity_zero_norm;
      [| exact E | left; now rewrite norm_zeros].
    cbn [bind]. rewrite IH, <- app_assoc. reflexivity.
Qed.

Lemma scored_In (target : vec) (es : list (string * vec))
      (scores : list (string * float)) (p : string * float) :
  Forall2 (scored target) es scores -> In p scores ->
  exists e, In e es /\ scored target e p.
Proof.
  induction 1 as [|e q es qs Hs _ IH]; simpl; [tauto|].
  intros [<-|Hp]; [eauto|].
  destruct (IH Hp) as (e' & He' & Hs'). eauto.
Qed.

Lemma In_scored (target : vec) (es : list (string * vec))
      (scores : list (string * float)) (e : string * vec) :
  Forall2 (scored target) es scores -> In e es ->
  exists p, In p scores /\ scored target e p.
Proof.
  induction 1 as [|e' q es qs Hs _ IH]; simpl; [tauto|].
  intros [<-|He]; [eauto|].
  destruct (IH He) as (p & Hp & Hs'). eauto.
Qed.

End Matcher.

(** ** The online feature extractor *)

Section Online.
Context `{cv : OpenCV}.
Import FeatureExtractor.

Lemma sanitized_finite (v : vec) : all_finite (inf_to_zero (nan_to_zero v)).
Proof.
  unfold all_finite, inf_to_zero, nan_to_zero.
  induction v as [|x v IH]; simpl; constructor; auto.
  now destruct x.
Qed.

Lemma sanitized_length (v : vec) :
  length (inf_to_zero (nan_to_zero v)) = length v.
Proof. unfold inf_to_zero, nan_to_zero. now rewrite !length_map. Qed.

Lemma sanitized_nth (i : nat) (v : vec) (x : float) :
  nth_error v i = Some x ->
  nth_error (inf_to_zero (nan_to_zero v)) i
  = Some (if is_nan x then pos_zero else if is_inf x then pos_zero else x).
Proof.
  intros H. unfold inf_to_zero, nan_to_zero.
  rewrite !nth_error_map, H. simpl. now destruct x.
Qed.

(** What [extract_features] assembles on a non-empty 2-D image. *)
Lemma extract_features_valid (img : ndarray) (h w : nat)
      (cs : list contour) (hier : option (list hierarchy_row)) :
  shape img = [h; w] -> h <> 0%nat -> w <> 0%nat ->
  findContours (copyMakeBorder img) = (cs, hier) ->
  exists density cx cy perimeter area,
    extract_features (Some img)
    = inf_to_zero (nan_to_zero (map to_f32
        [int_truediv (Z.of_nat w) (Z.of_nat h); density; cx; cy;
         f64_of_Z (match hier with
                   | Some rows => count_holes cs rows
                   | None => 0%Z
                   end);
         perimeter; area])).
Proof.
  intros Hs Hh Hw Hf. unfold extract_features, ndim, size. rewrite Hs.
  cbn [fold_right length Nat.eqb negb orb].
  assert (E1 : (h * (w * 1) =? 0)%nat = false) by (apply Nat.eqb_neq; nia).
  assert (E2 : ((h =? 0) || (w =? 0))%nat = false)
    by (apply orb_false_iff; split; now apply Nat.eqb_neq).
  rewrite E1, E2, Hf.
  destruct (negb (feq (m00 (moments img)) pos_zero));
    destruct hier as [rows|];
    [destruct (external_totals cs rows) as [p a] eqn:Et | |
     destruct (external_totals cs rows) as [p a] eqn:Et | ];
    do 5 eexists; reflexivity.
Qed.

Lemma extract_features_sanitized (char_image : option ndarray) :
  exists v, length v = FEATURE_VECTOR_SIZE /\
            extract_features char_image = inf_to_zero (nan_to_zero v).
Proof.
  assert (Z0 : exists v, length v = FEATURE_VECTOR_SIZE /\
                         zeros FEATURE_VECTOR_SIZE = inf_to_zero (nan_to_zero v))
    by (exists (zeros FEATURE_VECTOR_SIZE); split; reflexivity).
  destruct char_image as [img|]; [|exact Z0].
  destruct (shape img) as [|h [|w [|x rest]]] eqn:Hs;
    try (unfold extract_features, ndim; rewrite Hs; exact Z0).
  destruct (Nat.eq_dec h 0) as [->|Hh];
    [unfold extract_features, ndim, size; rewrite Hs; exact Z0|].
  destruct (Nat.eq_dec w 0) as [->|Hw].
  { unfold extract_features, ndim, size; rewrite Hs.
    cbn [fold_right length Nat.eqb negb orb].
    destruct (h * (0 * 1) =? 0)%nat; [exact Z0|].
    rewrite orb_true_r. exact Z0. }
  destruct (findContours (copyMakeBorder img)) as [cs hier] eqn:Hf.
  destruct (extract_features_valid img h w cs hier Hs Hh Hw Hf)
    as (b & c & d & f & g & ->).
  eexists. split; [|reflexivity]. reflexivity.
Qed.

End Online.

(** ** The database builder *)

Section Offline.
Context `{cv : OpenCV} `{rd : Renderer}.
Import BuildFontDatabase.

(** The builder's extractor assembles five fields. *)
Lemma builder_features_length (glyph_img : ndarray) (v : vec) :
  extract_features glyph_img = Some v -> length v = 5%nat.
Proof.
  unfold extract_features.
  destruct (findContours glyph_img) as [[|c cs] [rows|]]; try discriminate.
  destruct (first_root 0 (combine (c :: cs) rows)) as [[idx outer]|];
    [|discriminate].
  destruct (boundingRect outer) as [[[x y] w] h].
  destruct ((h =? 0) || (w =? 0))%nat; [discriminate|].
  destruct (feq (m00 (contour_moments outer)) pos_zero); [discriminate|].
  intros H. injection H as <-. reflexivity.
Qed.

Lemma fold_left_invariant {S T : Type} (P : S -> Prop) (f : S -> T -> S)
      (l : list T) :
  (forall s t, P s -> P (f s t)) -> forall s, P s -> P (fold_left f l s).
Proof. intros Hf. induction l as [|t l IH]; simpl; auto. Qed.

Lemma char_features_length (fp : font_path) :
  Forall (fun v => length v = 5%nat) (char_features fp).
Proof.
  unfold char_features. apply fold_left_invariant; [|constructor].
  intros acc char Hacc.
  destruct (render_char fp char FONT_SIZE CANVAS_SIZE) as [glyph_img|]; auto.
  destruct (extract_features glyph_img) as [features|] eqn:E; auto.
  apply Forall_app. split; [exact Hacc|].
  constructor; [|constructor]. eapply builder_features_length, E.
Qed.

Lemma vadd_length (a b : vec) :
  length b = length a -> length (vadd a b) = length a.
Proof.
  intros H. unfold vadd. rewrite length_map, length_combine, H.
  apply Nat.min_id.
Qed.

Lemma sum_length (d : nat) (rest : list vec) :
  Forall (fun v => length v = d) rest ->
  forall acc, length acc = d -> length (fold_left vadd rest acc) = d.
Proof.
  induction 1 as [|v rest Hv _ IH]; intros acc Hacc; simpl; [exact Hacc|].
  apply IH. rewrite vadd_length; congruence.
Qed.

(** The mean of vectors of one length exists and has that length. *)
Lemma mean_axis0_length (d : nat) (first : vec) (rest : list vec) :
  Forall (fun v => length v = d) (first :: rest) ->
  exists m, mean_axis0 first rest = Ok m /\ length m = d.
Proof.
  intros H. inversion H as [|? ? Hf Hr]; subst. unfold mean_axis0.
  assert (E : forallb (shape_eqb first) rest = true).
  { apply forallb_forall. intros v Hv. rewrite Forall_forall in Hr.
    unfold shape_eqb. rewrite (Hr v Hv). apply Nat.eqb_refl. }
  rewrite E. eexists. split; [reflexivity|].
  rewrite length_map. now apply sum_length.
Qed.

Lemma dict_set_Forall {V : Type} (P : string * V -> Prop)
      (d : list (string * V)) (key : string) (value : V) :
  (forall k, P (k, value)) -> Forall P d -> Forall P (dict_set d key value).
Proof.
  intros Hv. induction 1 as [|[k v] rest Hk Hrest IH]; cbn [dict_set].
  - constructor; [apply Hv | constructor].
  - destruct (String.eqb k key); constructor; auto.
Qed.

(** Every vector the builder stores has the builder's five fields. *)
Lemma build_stores_five (font_paths : list font_path) :
  forall font_database,
    Forall (fun e => length (snd e) = 5%nat) font_database ->
    exists db, build font_paths font_database = Ok db /\
               Forall (fun e => length (snd e) = 5%nat) db.
Proof.
  induction font_paths as [|fp rest IH]; intros db Hdb; cbn [build].
  - eauto.
  - pose proof (char_features_length fp) as Hc.
    destruct (char_features fp) as [|first others]; [now apply IH|].
    destruct (mean_axis0_length 5 first others Hc) as (m & -> & Hm).
    cbn [bind]. apply IH. now apply dict_set_Forall.
Qed.

End Offline.

(** ** Counting holes *)

Section Holes.
Import FeatureExtractor.

Lemma count_holes_from (crs : list (contour * hierarchy_row)) :
  forall n,
    fold_left (fun num_holes cr =>
                 if has_parent (snd cr) then num_holes + 1 else num_holes)%Z
              crs n
    = (n + Z.of_nat (length (filter (fun cr => has_parent (snd cr)) crs)))%Z.
Proof.
  induction crs as [|cr crs IH]; intros n; cbn [fold_left filter].
  - simpl. lia.
  - rewrite IH. destruct (has_parent (snd cr)); cbn [length]; lia.
Qed.

Lemma filter_combine_snd {S T : Type} (f : T -> bool) (l1 : list S) :
  forall l2, length l2 = length l1 ->
    length (filter (fun p => f (snd p)) (combine l1 l2)) = length (filter f l2).
Proof.
  induction l1 as [|a l1 IH]; intros [|b l2] H; try discriminate; simpl; auto.
  injection H as H. destruct (f b); simpl; now rewrite IH.
Qed.

(** The extractor's hole counter is the number of contours with a parent. *)
Lemma count_holes_spec (contours : list contour) (rows : list hierarchy_row) :
  length rows = length contours ->
  count_holes contours rows = Z.of_nat (length (filter has_parent rows)).
Proof.
  intros H. unfold count_holes. rewrite count_holes_from.
  now rewrite (filter_combine_snd has_parent contours rows H).
Qed.

(** The application's extractor: the fifth field is the number of contours
    that have a parent, as a float32 (after the NaN and infinity pass). *)
Lemma online_hole_count `{cv : OpenCV} (img : ndarray) (h w : nat)
      (cs : list contour) (rows : list hierarchy_row) :
  shape img = [h; w] -> h <> 0%nat -> w <> 0%nat ->
  findContours (copyMakeBorder img) = (cs, Some rows) ->
  nth_error (extract_features (Some img)) 4
  = Some (let x := to_f32 (f64_of_Z (Z.of_nat (length (filter has_parent rows)))) in
          if is_nan x then pos_zero else if is_inf x then pos_zero else x).
Proof.
  intros Hs Hh Hw Hf.
  destruct (extract_features_valid img h w cs (Some rows) Hs Hh Hw Hf)
    as (b & c & d & f & g & ->).
  rewrite (count_holes_spec cs rows (findContours_rows _ _ _ Hf)).
  now apply sanitized_nth.
Qed.

End Holes.

(* ================================================================= *)
(** * The claims *)

(** C1.  The claim: the builder's feature extraction and the application's
    feature extraction are the same function of the raster.  In the code
    they never agree: on every raster and for every behaviour of OpenCV the
    application's extractor returns seven fields, the builder's returns
    [None] or five. *)
Theorem offline_online_extractors_differ `{cv : OpenCV} (img : ndarray) :
  BuildFontDatabase.extract_features img
  <> Some (FeatureExtractor.extract_features (Some img)).
Proof.
  intros E. apply builder_features_length in E.
  destruct (extract_features_sanitized (Some img)) as (v & Hv & Hx).
  rewrite Hx, sanitized_length, Hv in E. discriminate.
Qed.

(** C2.  The claim: every vector stored in the database has 7 components.
    In the code every stored fingerprint has 5 components, the fields of the
    builder's own extractor, for every font list, renderer and OpenCV. *)
Theorem stored_fingerprints_have_five_components
        `{cv : OpenCV} `{rd : Renderer} (font_paths : list Pillow.font_path) :
  match BuildFontDatabase.main font_paths with
  | Ok db =>
      Forall (fun e => length (snd e) = 5%nat /\
                       length (snd e) <> FeatureExtractor.FEATURE_VECTOR_SIZE) db
  | Raise _ => False
  end.
Proof.
  unfold BuildFontDatabase.main.
  destruct (build_stores_five font_paths [] (Forall_nil _)) as (db & E & H).
  destruct (BuildFontDatabase.build font_paths []) as [db'|e] eqn:E'.
  - assert (Edb : Ok db' = Ok db) by exact (eq_trans (eq_sym E') E).
    injection Edb as ->.
    eapply Forall_impl; [|exact H].
    intros e He. split; [exact He|]. rewrite He. discriminate.
  - assert (Edb : Raise e = Ok db) by exact (eq_trans (eq_sym E') E).
    discriminate Edb.
Qed.

(** C3.  The claim: a raster without foreground pixels yields the all-zero
    vector.  In the code the aspect ratio [w / h] is computed before any
    pixel is looked at: on [np.zeros((50, 50))], the empty image of the
    module's own test, the first field is 1.0 whatever OpenCV answers, and
    with no contour found the vector is [1, 0, 0, 0, 0, 0, 0]. *)
Theorem empty_image_keeps_its_aspect_ratio :
  (forall cv : OpenCV,
      exists others,
        @FeatureExtractor.extract_features cv (Some Fixtures.img_empty)
        = f32_one :: others) /\
  @FeatureExtractor.extract_features
     (Fixtures.reference_cv (fun _ => [])) (Some Fixtures.img_empty)
  = f32_one :: zeros 6 /\
  f32_one :: zeros 6 <> zeros FeatureExtractor.FEATURE_VECTOR_SIZE.
Proof.
  split; [|split].
  - intros cv.
    destruct (findContours (copyMakeBorder Fixtures.img_empty)) as [cs hier] eqn:Hf.
    destruct (extract_features_valid Fixtures.img_empty 50 50 cs hier)
      as (b & c & d & f & g & ->); try reflexivity; try discriminate.
    + exact Hf.
    + eexists. reflexivity.
  - reflexivity.
  - discriminate.
Qed.

(** C5.  The claim: the hole count is the number of contours that have a
    parent, at any nesting depth.  The application's extractor counts so
    ([online_hole_count]); the builder's extractor counts the direct
    children of the first root only.  On a dotted zero, whose contour tree
    is outer border, hole, island, two contours have a parent: the
    application's fifth field is 2, the builder's is 1. *)
Theorem builder_counts_only_children_of_the_first_root :
  length (filter has_parent (map snd (Fixtures.dotted_zero_contours 0))) = 2%nat /\
  nth_error (@FeatureExtractor.extract_features Fixtures.cv_dotted_zero
               (Some Fixtures.img_dotted_zero)) 4
  = Some (f32_of_Z 2) /\
  option_map (fun v => nth_error v 4)
             (@BuildFontDatabase.extract_features Fixtures.cv_dotted_zero
                Fixtures.img_dotted_zero)
  = Some (Some (f32_of_Z 1)).
Proof. repeat split; vm_compute; reflexivity. Qed.

(** C6.  For every input, [None] and empty or degenerate arrays included,
    and whatever OpenCV computes, the application's [extract_features]
    returns exactly 7 values and each of them is finite: NaN and the
    infinities have been replaced by 0. *)
Theorem extract_features_seven_finite_values
        `{cv : OpenCV} (char_image : option ndarray) :
  length (FeatureExtractor.extract_features char_image)
  = FeatureExtractor.FEATURE_VECTOR_SIZE /\
  all_finite (FeatureExtractor.extract_features char_image).
Proof.
  destruct (extract_features_sanitized char_image) as (v & Hv & ->).
  split.
  - now rewrite sanitized_length.
  - apply sanitized_finite.
Qed.

(** C7.  An empty query gives an empty result for every database and
    [top_n], and so does every query against an empty or unloaded database;
    the call returns, it does not raise. *)
Theorem empty_query_or_database_gives_empty_result
        (db : option (list (string * vec))) (q : list vec) (top_n : Z) :
  find_best_matches db [] top_n = Ok [] /\
  find_best_matches (Some []) q top_n = Ok [] /\
  find_best_matches None q top_n = Ok [].
Proof.
  repeat split. destruct db as [[|e items]|]; reflexivity.
Qed.

(** C8.  The claim: the score is 0 when a norm is 0, and every score lies
    in [-1, 1].  The first half holds ([cosine_similarity_zero_norm]).  The
    second fails in float32: for the fingerprint [1, 1, 0, 0, 0, 0, 0]
    matched against itself the dot product is 2, each norm is the rounded
    square root of 2, their rounded product is below 2, and the score is
    1 + 2^-23, above 1. *)
Theorem score_of_identical_vectors_exceeds_one :
  _cosine_similarity Fixtures.pixel_vector Fixtures.pixel_vector
  = Ok f32_above_one /\
  find_best_matches (Some Fixtures.single_font) [Fixtures.pixel_vector] 3
  = Ok [("mono.ttf"%string, f32_above_one)] /\
  flt f32_one f32_above_one = true.
Proof. repeat split; vm_compute; reflexivity. Qed.

(** The vector of C8 is the feature vector of a single white pixel. *)
Example pixel_features :
  @FeatureExtractor.extract_features
     (Fixtures.reference_cv (fun _ => [([(1, 1)%Z], Fixtures.root)]))
     (Some Fixtures.img_pixel)
  = Fixtures.pixel_vector.
Proof. vm_compute. reflexivity. Qed.



(** C10.  A non-empty query of zero vectors has the zero vector as its
    mean; against a non-empty database whose entries have the query's
    dimension the match is not empty: every entry scores exactly 0, the
    entries stay in database order, and the first [top_n] of them are
    returned, min(top_n, number of entries) pairs. *)
Theorem zero_query_scores_every_entry_zero
        (d : nat) (items : list (string * vec)) (first : vec)
        (rest : list vec) (top_n : Z) :
  Forall (fun v => v = zeros d) (first :: rest) ->
  items <> [] ->
  Forall (fun e => length (snd e) = d) items ->
  (0 <= top_n)%Z ->
  exists r,
    find_best_matches (Some items) (first :: rest) top_n = Ok r /\
    r = firstn (Z.to_nat top_n) (map (fun e => (fst e, pos_zero)) items) /\
    length r = Z.to_nat (Z.min top_n (Z.of_nat (length items))) /\
    Forall (fun p => snd p = pos_zero) r /\
    ((0 < top_n)%Z -> r <> []).
Proof.
  intros Hq Hne Hd Hn.
  inversion Hq as [|? ? -> Hrest]; subst.
  eexists. split; [|split; [reflexivity|]].
  - destruct items as [|e items]; [congruence|].
    cbn [find_best_matches]. rewrite (mean_zeros d rest Hrest).
    rewrite (score_loop_zero_target d (e :: items) Hd []).
    cbn [bind app map].
    rewrite (sort_reverse_constant pos_zero).
    + unfold slice_to. apply Z.leb_le in Hn. now rewrite Hn.
    + constructor; [reflexivity|]. apply Forall_map, Forall_forall. reflexivity.
  - split; [|split].
    + rewrite length_firstn, length_map. lia.
    + apply firstn_Forall, Forall_map, Forall_forall. reflexivity.
    + intros Hpos.
      destruct items as [|e items]; [congruence|].
      destruct (Z.to_nat top_n) as [|k] eqn:Ek; [lia|]. discriminate.
Qed.

Lemma zero_query_scores_every_entry_zero_witness :
  Forall (fun q => q = zeros 7) [zeros 7; zeros 7] /\
  Fixtures.twin_fonts <> [] /\
  Forall (fun e => length (snd e) = 7%nat) Fixtures.twin_fonts /\
  (0 <= 1)%Z /\
  exists r,
    find_best_matches (Some Fixtures.twin_fonts) [zeros 7; zeros 7] 1 = Ok r /\
    r = firstn (Z.to_nat 1)
               (map (fun e => (fst e, pos_zero)) Fixtures.twin_fonts) /\
    length r = Z.to_nat (Z.min 1 (Z.of_nat (length Fixtures.twin_fonts))) /\
    Forall (fun p => snd p = pos_zero) r /\
    ((0 < 1)%Z -> r <> []).
Proof.
  assert (Hq : Forall (fun q => q = zeros 7) [zeros 7; zeros 7])
    by (repeat constructor).
  assert (Hd : Forall (fun e : string * vec => length (snd e) = 7%nat)
                      Fixtures.twin_fonts)
    by (repeat constructor).
  split; [exact Hq|]. split; [discriminate|]. split; [exact Hd|].
  split; [lia|].
  apply (zero_query_scores_every_entry_zero
           7 Fixtures.twin_fonts (zeros 7) [zeros 7] 1 Hq);
    [discriminate | exact Hd | lia].
Defined.

(** C4.  The claim: entries with equal scores are ordered by ascending font
    identifier.  The sort has the score as its only key and is stable, so
    tied entries stay in the order of the database: with two fonts of the
    same fingerprint stored as "b.ttf" then "a.ttf", the result lists
    "b.ttf" first. *)
Lemma ties_are_not_ordered_by_identifier :
  find_best_matches (Some Fixtures.twin_fonts) [Fixtures.pixel_vector] 3
  = Ok [("b.ttf"%string, f32_above_one); ("a.ttf"%string, f32_above_one)] /\
  ~ ties_by_identifier
      [("b.ttf"%string, f32_above_one); ("a.ttf"%string, f32_above_one)].
Proof.
  split; [vm_compute; reflexivity|].
  intros H.
  specialize (H 0%nat 1%nat _ _ (le_n 1) eq_refl eq_refl eq_refl).
  discriminate H.
Qed.

(** C4, amended.  For a query that has a mean and a database in which no
    similarity is NaN, the result is ordered by descending score: no entry
    is followed by one with a larger score, and every entry scores at least
    as much as every later one.  Entries with equal scores keep the order
    in which the database lists them: for every score, the font identifiers
    of the entries with that score appear in the result in database
    order. *)
Theorem ties_keep_database_order
        (items : list (string * vec)) (first : vec) (rest : list vec)
        (top_n : Z) (target : vec) (r : list (string * float)) :
  mean_axis0 first rest = Ok target ->
  (forall font_name v s,
      has_entry items font_name v -> _cosine_similarity target v = Ok s ->
      is_nan s = false) ->
  find_best_matches (Some items) (first :: rest) top_n = Ok r ->
  descending r /\
  non_increasing r /\
  forall s, subseq (map fst (filter (tie s) r)) (map fst items).
Proof.
  intros Hm Hnan E.
  destruct (find_best_matches_scores items first rest top_n target Hm)
    as (scores & HF & E').
  rewrite E' in E. injection E as <-.
  destruct (slice_to_firstn (sort_reverse item_score scores) top_n) as [n ->].
  assert (Hd : descending (firstn n (sort_reverse item_score scores)))
    by apply descending_firstn, sort_reverse_descending.
  split; [exact Hd|]. split.
  - apply descending_non_increasing; [exact Hd|].
    apply firstn_Forall, Forall_forall. intros p Hp.
    apply (Permutation_in _ (sort_reverse_perm scores)) in Hp.
    destruct (scored_In target _ _ p HF Hp) as ([font_name v] & He & _ & Hc).
    apply filter_In in He. destruct He as [He _].
    exact (Hnan font_name v (snd p) He Hc).
  - intros s.
    apply subseq_trans with (map fst scores).
    + apply subseq_map.
      apply subseq_trans with (filter (tie s) (sort_reverse item_score scores)).
      * apply subseq_filter_mono, subseq_firstn.
      * rewrite sort_reverse_stable. apply subseq_filter.
    + rewrite (scored_names target _ _ HF).
      apply subseq_map, subseq_filter.
Qed.

Lemma ties_keep_database_order_witness :
  mean_axis0 Fixtures.pixel_vector [] = Ok Fixtures.pixel_vector /\
  (forall font_name v s,
      has_entry Samples.three_fonts font_name v ->
      _cosine_similarity Fixtures.pixel_vector v = Ok s ->
      is_nan s = false) /\
  find_best_matches (Some Samples.three_fonts) [Fixtures.pixel_vector] 3
  = Ok [("b.ttf"%string, f32_above_one); ("a.ttf"%string, f32_above_one);
        ("far.ttf"%string, S754_finite false 11863283 (-24))] /\
  (descending
     [("b.ttf"%string, f32_above_one); ("a.ttf"%string, f32_above_one);
      ("far.ttf"%string, S754_finite false 11863283 (-24))] /\
   non_increasing
     [("b.ttf"%string, f32_above_one); ("a.ttf"%string, f32_above_one);
      ("far.ttf"%string, S754_finite false 11863283 (-24))] /\
   forall s,
     subseq (map fst (filter (tie s)
                        [("b.ttf"%string, f32_above_one);
                         ("a.ttf"%string, f32_above_one);
                         ("far.ttf"%string, S754_finite false 11863283 (-24))]))
            (map fst Samples.three_fonts)).
Proof.
  assert (Hnan : forall font_name v s,
             has_entry Samples.three_fonts font_name v ->
             _cosine_similarity Fixtures.pixel_vector v = Ok s ->
             is_nan s = false).
  { intros font_name v s [E|[E|[E|[]]]] Hc; injection E as _ <-;
      vm_compute in Hc; injection Hc as <-; reflexivity. }
  split; [reflexivity|]. split; [exact Hnan|].
  split; [vm_compute; reflexivity|].
  apply (ties_keep_database_order
           Samples.three_fonts Fixtures.pixel_vector [] 3 Fixtures.pixel_vector).
  - reflexivity.
  - exact Hnan.
  - vm_compute. reflexivity.
Defined.

(** ** The code on concrete rasters *)

(** On a ring, one hole and nothing nested, both extractors count 1. *)
Example ring_has_one_hole :
  let cv := Fixtures.reference_cv (fun img =>
              if (Fixtures.height img =? 7)%nat then Fixtures.ring_contours 0
              else Fixtures.ring_contours 1) in
  nth_error (@FeatureExtractor.extract_features cv (Some Fixtures.img_ring)) 4
  = Some (f32_of_Z 1) /\
  option_map (fun v => nth_error v 4)
             (@BuildFontDatabase.extract_features cv Fixtures.img_ring)
  = Some (Some (f32_of_Z 1)).
Proof. split; vm_compute; reflexivity. Qed.

(** The two extractors on the dotted zero: seven fields against five, and
    different values where the fields have the same name. *)
Example dotted_zero_features :
  @FeatureExtractor.extract_features Fixtures.cv_dotted_zero
     (Some Fixtures.img_dotted_zero)
  = [ f32_one;
      S754_finite false 8559804 (-24);
      S754_finite false 14380471 (-25);
      S754_finite false 14380471 (-25);
      f32_of_Z 2;
      S754_finite false 10168528 (-22);
      S754_finite false 12326118 (-24) ] /\
  @BuildFontDatabase.extract_features Fixtures.cv_dotted_zero
     Fixtures.img_dotted_zero
  = Some [ f32_one;
           S754_finite false 8559804 (-24);
           S754_finite false 14380471 (-25);
           S754_finite false 14380471 (-25);
           f32_of_Z 1 ].
Proof. split; vm_compute; reflexivity. Qed.

(** A database built from one font: one fingerprint, of five components. *)
Example one_font_database :
  @BuildFontDatabase.main Fixtures.cv_dotted_zero Fixtures.only_zero
     [Fixtures.mono_ttf]
  = Ok [("mono.ttf"%string,
         [ f32_one;
           S754_finite false 8559804 (-24);
           S754_finite false 14380471 (-25);
           S754_finite false 14380471 (-25);
           f32_of_Z 1 ])].
Proof. vm_compute. reflexivity. Qed.

(** Such a database never answers a query of the application's vectors:
    every entry is skipped. *)
Example five_field_database_matches_nothing :
  find_best_matches (Some [("mono.ttf"%string, Fixtures.stale_vector)])
                    [Fixtures.pixel_vector] 3
  = Ok [].
Proof. vm_compute. reflexivity. Qed.

(** A negative [top_n] is a slice from the end. *)
Example negative_top_n :
  find_best_matches (Some Fixtures.twin_fonts) [Fixtures.pixel_vector] (-1)
  = Ok [("b.ttf"%string, f32_above_one)].
Proof. vm_compute. reflexivity. Qed.

(* ================================================================= *)
(** * Further properties of the code *)

(** ** More on [find_best_matches] *)

Section MatcherMore.

Lemma subseq_In {T : Type} (l1 l2 : list T) (x : T) :
  subseq l1 l2 -> In x l1 -> In x l2.
Proof.
  induction 1 as [|y l1 l2 H IH|y l1 l2 H IH]; simpl; intros Hx; auto.
  destruct Hx; auto.
Qed.

Lemma subseq_NoDup {T : Type} (l1 l2 : list T) :
  subseq l1 l2 -> NoDup l2 -> NoDup l1.
Proof.
  induction 1 as [|y l1 l2 H IH|y l1 l2 H IH]; intros Hd;
    inversion Hd; subst; auto.
  constructor; auto. intros Hy. eauto using subseq_In.
Qed.

Lemma slice_to_length {T : Type} (l : list T) (k : Z) :
  length (slice_to l k) = slice_length (length l) k.
Proof.
  unfold slice_to, slice_length.
  destruct (0 <=? k)%Z; rewrite length_firstn; lia.
Qed.

(** X1.  [top_n] only truncates: for a database and a query that has a
    mean there is one ranking, and every call returns the slice
    [ranking[:top_n]] of it.  A larger [top_n] extends the answer and never
    reorders it. *)
Theorem top_n_only_truncates
        (db : option (list (string * vec))) (first : vec) (rest : list vec)
        (target : vec) :
  mean_axis0 first rest = Ok target ->
  exists ranking, forall top_n,
      find_best_matches db (first :: rest) top_n = Ok (slice_to ranking top_n).
Proof.
  intros Hm.
  assert (Hnil : forall k, @Ok (list (string * float)) [] = Ok (slice_to [] k))
    by (intros k; now rewrite slice_to_nil).
  destruct db as [[|e items]|]; [exists []; exact Hnil | | exists []; exact Hnil].
  cbn [find_best_matches]. rewrite Hm.
  destruct (score_loop_spec target (e :: items) []) as (scores & _ & ->).
  exists (sort_reverse item_score scores). intros top_n.
  cbn [bind app]. destruct scores; [apply Hnil | reflexivity].
Qed.

Lemma top_n_only_truncates_witness :
  mean_axis0 Fixtures.pixel_vector [Fixtures.pixel_vector]
  = Ok Fixtures.pixel_vector /\
  exists ranking, forall top_n,
      find_best_matches (Some Samples.two_fonts)
                        (Fixtures.pixel_vector :: [Fixtures.pixel_vector]) top_n
      = Ok (slice_to ranking top_n).
Proof.
  split; [vm_compute; reflexivity|].
  apply (top_n_only_truncates
           (Some Samples.two_fonts) Fixtures.pixel_vector [Fixtures.pixel_vector]
           Fixtures.pixel_vector).
  vm_compute. reflexivity.
Defined.

(** X2.  The number of results: with u database entries of the target's
    shape, the result has min(top_n, u) entries for [top_n >= 0] and
    max(0, u + top_n) entries for a negative [top_n]. *)
Theorem result_length
        (items : list (string * vec)) (first : vec) (rest : list vec)
        (top_n : Z) (target : vec) :
  mean_axis0 first rest = Ok target ->
  exists r,
    find_best_matches (Some items) (first :: rest) top_n = Ok r /\
    length r = slice_length (length (filter (usable target) items)) top_n.
Proof.
  intros Hm.
  destruct (find_best_matches_scores items first rest top_n target Hm)
    as (scores & HF & ->).
  eexists. split; [reflexivity|].
  rewrite slice_to_length, (Permutation_length (sort_reverse_perm scores)).
  now rewrite (Forall2_length HF).
Qed.

Lemma result_length_witness :
  mean_axis0 Fixtures.pixel_vector [] = Ok Fixtures.pixel_vector /\
  exists r,
    find_best_matches (Some Fixtures.mixed_fonts) [Fixtures.pixel_vector] 1 = Ok r /\
    length r
    = slice_length
        (length (filter (usable Fixtures.pixel_vector) Fixtures.mixed_fonts)) 1.
Proof.
  split; [reflexivity|].
  apply (result_length Fixtures.mixed_fonts Fixtures.pixel_vector [] 1
                       Fixtures.pixel_vector).
  reflexivity.
Defined.

(** X3.  Every returned pair is a font of the database whose fingerprint has
    the target's shape, together with the cosine similarity of the target
    and that fingerprint. *)
Theorem results_are_scored_database_entries
        (items : list (string * vec)) (first : vec) (rest : list vec)
        (top_n : Z) (target : vec) (r : list (string * float)) :
  mean_axis0 first rest = Ok target ->
  find_best_matches (Some items) (first :: rest) top_n = Ok r ->
  Forall (fun p => exists v,
              has_entry items (fst p) v /\
              shape_eqb target v = true /\
              _cosine_similarity target v = Ok (snd p)) r.
Proof.
  intros Hm Hr.
  destruct (find_best_matches_scores items first rest top_n target Hm)
    as (scores & HF & E).
  rewrite E in Hr. injection Hr as <-.
  destruct (slice_to_firstn (sort_reverse item_score scores) top_n) as [n ->].
  apply Forall_forall. intros p Hp.
  apply (subseq_In _ _ _ (subseq_firstn n _)) in Hp.
  apply (Permutation_in _ (sort_reverse_perm scores)) in Hp.
  destruct (scored_In target _ _ p HF Hp) as ([font_name v] & He & Hn & Hc).
  apply filter_In in He. destruct He as [He Hu].
  exists v. cbn [fst snd] in *. rewrite Hn. auto.
Qed.

Lemma results_are_scored_database_entries_witness :
  mean_axis0 Fixtures.pixel_vector [] = Ok Fixtures.pixel_vector /\
  find_best_matches (Some Fixtures.mixed_fonts) [Fixtures.pixel_vector] 3
  = Ok [("a.ttf"%string, f32_above_one); ("b.ttf"%string, f32_above_one)] /\
  Forall (fun p => exists v,
              has_entry Fixtures.mixed_fonts (fst p) v /\
              shape_eqb Fixtures.pixel_vector v = true /\
              _cosine_similarity Fixtures.pixel_vector v = Ok (snd p))
         [("a.ttf"%string, f32_above_one); ("b.ttf"%string, f32_above_one)].
Proof.
  split; [reflexivity|]. split; [vm_compute; reflexivity|].
  apply (results_are_scored_database_entries
           Fixtures.mixed_fonts Fixtures.pixel_vector [] 3 Fixtures.pixel_vector).
  - reflexivity.
  - vm_compute. reflexivity.
Defined.

Lemma filter_map_NoDup {S T : Type} (f : S -> T) (p : S -> bool) (l : list S) :
  NoDup (map f l) -> NoDup (map f (filter p l)).
Proof.
  intros H. apply (subseq_NoDup _ (map f l)); [|exact H].
  apply subseq_map, subseq_filter.
Qed.

(** X4.  A database is a dictionary, its font identifiers are distinct, and
    then no font is returned twice. *)
Theorem no_font_is_returned_twice
        (items : list (string * vec)) (q : list vec) (top_n : Z)
        (r : list (string * float)) :
  NoDup (map fst items) ->
  find_best_matches (Some items) q top_n = Ok r ->
  NoDup (map fst r).
Proof.
  intros Hd Hr.
  destruct q as [|first rest].
  { destruct items; injection Hr as <-; constructor. }
  destruct (mean_axis0 first rest) as [target|e] eqn:Hm.
  - destruct (find_best_matches_scores items first rest top_n target Hm)
      as (scores & HF & E).
    rewrite E in Hr. injection Hr as <-.
    destruct (slice_to_firstn (sort_reverse item_score scores) top_n) as [n ->].
    apply (subseq_NoDup _ (map fst (sort_reverse item_score scores))).
    + apply subseq_map, subseq_firstn.
    + apply (Permutation_NoDup
               (Permutation_map fst (Permutation_sym (sort_reverse_perm scores)))).
      rewrite (scored_names target _ _ HF).
      now apply filter_map_NoDup.
  - destruct items; cbn [find_best_matches] in Hr; try rewrite Hm in Hr;
      injection Hr as <-; constructor.
Qed.

Lemma no_font_is_returned_twice_witness :
  NoDup (map fst Fixtures.twin_fonts) /\
  find_best_matches (Some Fixtures.twin_fonts) [Fixtures.pixel_vector] 3
  = Ok [("b.ttf"%string, f32_above_one); ("a.ttf"%string, f32_above_one)] /\
  NoDup (map fst [("b.ttf"%string, f32_above_one); ("a.ttf"%string, f32_above_one)]).
Proof.
  assert (Hd : NoDup (map fst Fixtures.twin_fonts)).
  { repeat constructor; simpl; intros H;
      repeat (destruct H as [H|H]; [discriminate H|]); exact H. }
  split; [exact Hd|]. split; [vm_compute; reflexivity|].
  apply (no_font_is_returned_twice
           Fixtures.twin_fonts [Fixtures.pixel_vector] 3 _ Hd).
  vm_compute. reflexivity.
Defined.

(** X5.  With [top_n] at least the size of the database nothing is cut off:
    the returned fonts are exactly the fonts whose fingerprint has the
    target's shape, each once. *)
Theorem large_top_n_returns_every_usable_font
        (items : list (string * vec)) (first : vec) (rest : list vec)
        (top_n : Z) (target : vec) :
  mean_axis0 first rest = Ok target ->
  (Z.of_nat (length items) <= top_n)%Z ->
  exists r,
    find_best_matches (Some items) (first :: rest) top_n = Ok r /\
    Permutation (map fst r) (map fst (filter (usable target) items)).
Proof.
  intros Hm Hn.
  destruct (find_best_matches_scores items first rest top_n target Hm)
    as (scores & HF & ->).
  eexists. split; [reflexivity|].
  assert (Hl : (length scores <= length items)%nat).
  { rewrite <- (Forall2_length HF). apply filter_length_le. }
  unfold slice_to.
  replace (0 <=? top_n)%Z with true by (symmetry; apply Z.leb_le; lia).
  rewrite firstn_all2
    by (rewrite (Permutation_length (sort_reverse_perm scores)); lia).
  rewrite (Permutation_map fst (sort_reverse_perm scores)).
  now rewrite (scored_names target _ _ HF).
Qed.

Lemma large_top_n_returns_every_usable_font_witness :
  mean_axis0 Fixtures.pixel_vector [] = Ok Fixtures.pixel_vector /\
  (Z.of_nat (length Fixtures.mixed_fonts) <= 3)%Z /\
  exists r,
    find_best_matches (Some Fixtures.mixed_fonts) [Fixtures.pixel_vector] 3 = Ok r /\
    Permutation (map fst r)
                (map fst (filter (usable Fixtures.pixel_vector) Fixtures.mixed_fonts)).
Proof.
  split; [reflexivity|]. split; [simpl; lia|].
  apply (large_top_n_returns_every_usable_font
           Fixtures.mixed_fonts Fixtures.pixel_vector [] 3 Fixtures.pixel_vector).
  - reflexivity.
  - simpl. lia.
Defined.

End MatcherMore.

(** ** The best match, symmetry, loading *)

Section MatcherOrder.

(** X6.  When no similarity is NaN the first result is a best match: no
    font of the target's shape has a similarity above the one returned
    first. *)
Theorem best_match_comes_first
        (items : list (string * vec)) (first : vec) (rest : list vec)
        (top_n : Z) (target : vec)
        (best : string * float) (others : list (string * float)) :
  mean_axis0 first rest = Ok target ->
  (forall font_name v s,
      has_entry items font_name v -> _cosine_similarity target v = Ok s ->
      is_nan s = false) ->
  find_best_matches (Some items) (first :: rest) top_n = Ok (best :: others) ->
  forall font_name v s,
    has_entry items font_name v -> shape_eqb target v = true ->
    _cosine_similarity target v = Ok s ->
    fle s (snd best) = true.
Proof.
  intros Hm Hnan Hr font_name v s He Hu Hc.
  destruct (find_best_matches_scores items first rest top_n target Hm)
    as (scores & HF & E).
  rewrite E in Hr. injection Hr as Hr.
  destruct (slice_to_firstn (sort_reverse item_score scores) top_n) as [n En].
  rewrite En in Hr.
  pose proof (sort_reverse_descending scores) as Hd.
  pose proof (sort_reverse_perm scores) as Hp.
  destruct (sort_reverse item_score scores) as [|x sorted]; 
    [destruct n; discriminate Hr|].
  destruct n as [|n]; [discriminate Hr|].
  cbn [firstn] in Hr. injection Hr as -> _.
  assert (Hall : Forall (fun p => is_nan (item_score p) = false) (best :: sorted)).
  { apply Forall_forall. intros p Hin.
    apply (Permutation_in _ Hp) in Hin.
    destruct (scored_In target _ _ p HF Hin) as ([fn w] & Hw & _ & Hcw).
    apply filter_In in Hw. destruct Hw as [Hw _].
    exact (Hnan fn w (snd p) Hw Hcw). }
  destruct (In_scored target _ _ (font_name, v) HF) as (p & Hin & _ & Hcp).
  { apply filter_In. split; [exact He | exact Hu]. }
  cbn [snd] in Hcp. rewrite Hc in Hcp. injection Hcp as ->.
  apply (Permutation_in _ (Permutation_sym Hp)) in Hin.
  destruct Hin as [<-|Hin].
  - apply fle_refl. inversion Hall; assumption.
  - pose proof (descending_head_is_largest best sorted Hd Hall) as Hmax.
    rewrite Forall_forall in Hmax. exact (Hmax p Hin).
Qed.

End MatcherOrder.

Lemma best_match_comes_first_witness :
  mean_axis0 Fixtures.pixel_vector [] = Ok Fixtures.pixel_vector /\
  (forall font_name v s,
      has_entry Samples.two_fonts font_name v ->
      _cosine_similarity Fixtures.pixel_vector v = Ok s ->
      is_nan s = false) /\
  find_best_matches (Some Samples.two_fonts) [Fixtures.pixel_vector] 3
  = Ok [("near.ttf"%string, f32_above_one);
        ("far.ttf"%string, S754_finite false 11863283 (-24))] /\
  forall font_name v s,
    has_entry Samples.two_fonts font_name v ->
    shape_eqb Fixtures.pixel_vector v = true ->
    _cosine_similarity Fixtures.pixel_vector v = Ok s ->
    fle s (snd ("near.ttf"%string, f32_above_one)) = true.
Proof.
  assert (Hnan : forall font_name v s,
             has_entry Samples.two_fonts font_name v ->
             _cosine_similarity Fixtures.pixel_vector v = Ok s ->
             is_nan s = false).
  { intros font_name v s [E|[E|[]]] Hc; injection E as _ <-;
      vm_compute in Hc; injection Hc as <-; reflexivity. }
  split; [reflexivity|]. split; [exact Hnan|].
  split; [vm_compute; reflexivity|].
  apply (best_match_comes_first
           Samples.two_fonts Fixtures.pixel_vector [] 3 Fixtures.pixel_vector
           ("near.ttf"%string, f32_above_one)
           [("far.ttf"%string, S754_finite false 11863283 (-24))]).
  - reflexivity.
  - exact Hnan.
  - vm_compute. reflexivity.
Defined.

Section MatcherEdges.

Lemma f32_mul_comm (x y : float) : f32_mul x y = f32_mul y x.
Proof.
  unfold f32_mul.
  destruct x as [sx|sx| |sx mx ex], y as [sy|sy| |sy my ey]; simpl;
    try reflexivity; try (now rewrite xorb_comm).
  now rewrite xorb_comm, Pos.mul_comm, Z.add_comm.
Qed.

Lemma dot_sum_comm (a : vec) :
  forall (b : vec) (acc : float),
    fold_left (fun acc p => f32_add acc (f32_mul (fst p) (snd p)))
              (combine a b) acc
    = fold_left (fun acc p => f32_add acc (f32_mul (fst p) (snd p)))
                (combine b a) acc.
Proof.
  induction a as [|x a IH]; intros [|y b] acc; try reflexivity.
  cbn [combine fold_left fst snd]. rewrite (f32_mul_comm x y). apply IH.
Qed.

(** X8.  The similarity is symmetric, also in float32: exchanging the two
    vectors gives the same score, bit for bit, or the same exception. *)
Theorem cosine_similarity_symmetric (vec1 vec2 : vec) :
  _cosine_similarity vec1 vec2 = _cosine_similarity vec2 vec1.
Proof.
  unfold _cosine_similarity, dot, shape_eqb.
  rewrite (Nat.eqb_sym (length vec2) (length vec1)).
  destruct (length vec1 =? length vec2)%nat; [|reflexivity].
  cbn [bind]. rewrite (dot_sum_comm vec1 vec2).
  rewrite (orb_comm (feq (norm vec2) pos_zero)).
  now rewrite (f32_mul_comm (norm vec2)).
Qed.

Import FontMatcherInit.

(** X9.  A matcher can always be constructed.  When the database file is
    missing, cannot be unpickled, does not hold a dictionary or holds an
    empty one, every call of [find_best_matches] returns the empty list; a
    non-empty dictionary is kept as it was stored. *)
Theorem matcher_without_database_matches_nothing
        `{st : Storage} (database_path : string) (q : list vec) (top_n : Z) :
  match open_and_load database_path with
  | Loaded (Dict (e :: items)) =>
      font_database (__init__ database_path) = Some (e :: items)
  | _ =>
      find_best_matches (font_database (__init__ database_path)) q top_n = Ok []
  end.
Proof.
  unfold __init__, _load_database. cbn [font_database].
  destruct (open_and_load database_path) as [| | | |[[|e items]|]]; reflexivity.
Qed.

End MatcherEdges.

(** ** Small integers survive the float casts *)

Section ExactIntegers.
Import Exact.

Lemma iter_xO_value (k p : positive) :
  Z.pos (Pos.iter xO p k) = (Z.pos p * 2 ^ Z.pos k)%Z.
Proof.
  induction k as [|k IH] using Pos.peano_ind.
  - simpl. lia.
  - rewrite Pos.iter_succ, Pos2Z.inj_xO, IH, Pos2Z.inj_succ, Z.pow_succ_r; lia.
Qed.

Lemma iter_xO_digits (k p : positive) :
  Z.pos (digits2_pos (Pos.iter xO p k)) = (Z.pos (digits2_pos p) + Z.pos k)%Z.
Proof.
  induction k as [|k IH] using Pos.peano_ind.
  - simpl. lia.
  - rewrite Pos.iter_succ. cbn [digits2_pos]. lia.
Qed.

Lemma shr_fexp_full (prec emax : Z) (m : positive) (e : Z) :
  Z.pos (digits2_pos m) = prec -> (emin prec emax <= e)%Z ->
  shr_fexp prec emax (Z.pos m) e loc_Exact
  = (Build_shr_record (Z.pos m) false false, e).
Proof.
  intros Hd Hlo.
  assert (Hk : (fexp prec emax (Zdigits2 (Z.pos m) + e) - e = 0)%Z)
    by (cbn [Zdigits2]; unfold fexp; lia).
  unfold shr_fexp. rewrite Hk. reflexivity.
Qed.

(** A mantissa of full width is rounded to itself. *)
Lemma binary_round_aux_full (prec emax : Z) (s : bool) (m : positive) (e : Z) :
  Z.pos (digits2_pos m) = prec ->
  (emin prec emax <= e)%Z -> (e <= emax - prec)%Z ->
  binary_round_aux prec emax s (Z.pos m) e loc_Exact = S754_finite s m e.
Proof.
  intros Hd Hlo Hhi.
  pose proof (shr_fexp_full prec emax m e Hd Hlo) as E.
  unfold binary_round_aux. rewrite E.
  cbn [shr_m loc_of_shr_record round_nearest_even]. rewrite E.
  cbn [shr_m]. apply Z.leb_le in Hhi. now rewrite Hhi.
Qed.

(** Shifting out zero bits is exact. *)
Lemma iter_shr_1_zero_bits (q : positive) :
  forall m, (0 <= m)%Z ->
    iter_pos shr_1 q (Build_shr_record (m * 2 ^ Z.pos q) false false)
    = Build_shr_record m false false.
Proof.
  assert (H1 : forall m, (0 <= m)%Z ->
             shr_1 (Build_shr_record (m * 2) false false)
             = Build_shr_record m false false).
  { intros [|p|p] Hm; try lia; [reflexivity|].
    rewrite Z.mul_comm. reflexivity. }
  induction q as [q IH|q IH|]; intros m Hm; cbn [iter_pos].
  - replace (m * 2 ^ Z.pos q~1)%Z with ((m * 2 ^ Z.pos q * 2 ^ Z.pos q) * 2)%Z.
    + rewrite H1 by (apply Z.mul_nonneg_nonneg; [apply Z.mul_nonneg_nonneg|]; lia).
      rewrite IH by (apply Z.mul_nonneg_nonneg; lia).
      now apply IH.
    + change (Z.pos q~1) with (2 * Z.pos q + 1)%Z.
      replace (2 * Z.pos q + 1)%Z with (Z.pos q + Z.pos q + 1)%Z by lia.
      rewrite !Z.pow_add_r by lia. lia.
  - replace (m * 2 ^ Z.pos q~0)%Z with ((m * 2 ^ Z.pos q) * 2 ^ Z.pos q)%Z.
    + rewrite IH by (apply Z.mul_nonneg_nonneg; lia).
      now apply IH.
    + change (Z.pos q~0) with (2 * Z.pos q)%Z.
      replace (2 * Z.pos q)%Z with (Z.pos q + Z.pos q)%Z by lia.
      rewrite !Z.pow_add_r by lia. lia.
  - change (2 ^ 1)%Z with 2%Z. now apply H1.
Qed.

Lemma widen_value (p : positive) (k : Z) :
  (0 <= k)%Z -> Z.pos (widen p k) = (Z.pos p * 2 ^ k)%Z.
Proof.
  destruct k as [|j|j]; intros Hk; try lia; cbn [widen].
  - simpl. lia.
  - apply iter_xO_value.
Qed.

Lemma widen_digits (p : positive) (k : Z) :
  (0 <= k)%Z ->
  Z.pos (digits2_pos (widen p k)) = (Z.pos (digits2_pos p) + k)%Z.
Proof.
  destruct k as [|j|j]; intros Hk; try lia; cbn [widen].
  - lia.
  - apply iter_xO_digits.
Qed.

(** A mantissa of full width followed by zero bits is rounded to the
    mantissa, exactly. *)
Lemma binary_round_aux_zero_bits (prec emax : Z) (s : bool) (q : positive)
      (j e : Z) :
  Z.pos (digits2_pos q) = prec -> (0 <= j)%Z ->
  (emin prec emax <= e + j)%Z -> (e + j <= emax - prec)%Z ->
  binary_round_aux prec emax s (Z.pos (widen q j)) e loc_Exact
  = S754_finite s q (e + j).
Proof.
  intros Hd Hj Hlo Hhi.
  destruct j as [|j|j]; try lia.
  - cbn [widen]. rewrite Z.add_0_r in *. now apply binary_round_aux_full.
  - assert (Hk : (fexp prec emax (Zdigits2 (Z.pos (widen q (Z.pos j))) + e) - e
                  = Z.pos j)%Z).
    { cbn [Zdigits2]. rewrite widen_digits by lia. unfold fexp. lia. }
    assert (E : shr_fexp prec emax (Z.pos (widen q (Z.pos j))) e loc_Exact
                = (Build_shr_record (Z.pos q) false false, (e + Z.pos j)%Z)).
    { unfold shr_fexp. rewrite Hk. cbn [shr_record_of_loc shr].
      rewrite widen_value by lia.
      now rewrite iter_shr_1_zero_bits by lia. }
    unfold binary_round_aux. rewrite E.
    cbn [shr_m loc_of_shr_record round_nearest_even].
    rewrite (shr_fexp_full prec emax q (e + Z.pos j) Hd Hlo).
    cbn [shr_m]. apply Z.leb_le in Hhi. now rewrite Hhi.
Qed.

Lemma digits2_small (p : positive) (n : Z) :
  (0 <= n)%Z -> (Z.pos p < 2 ^ n)%Z -> (Z.pos (digits2_pos p) <= n)%Z.
Proof.
  intros Hn Hp. pose proof (digits2_lower p) as Hl.
  destruct (Z_le_gt_dec (Z.pos (digits2_pos p)) n) as [H|H]; [exact H|].
  assert (2 ^ n <= 2 ^ (Z.pos (digits2_pos p) - 1))%Z
    by (apply Z.pow_le_mono_r; lia).
  lia.
Qed.

(** The binary64 and then the binary32 float of a positive integer below
    2^24. *)
Lemma f64_of_Z_small (p : positive) :
  (Z.pos (digits2_pos p) <= 53)%Z ->
  f64_of_Z (Z.pos p)
  = S754_finite false (widen p (53 - Z.pos (digits2_pos p)))
                (Z.pos (digits2_pos p) - 53).
Proof.
  intros Hd. unfold f64_of_Z, binary_normalize, binary_round.
  assert (Hf : fexp prec64 emax64 (Z.pos (digits2_pos p) + 0)
               = (Z.pos (digits2_pos p) - 53)%Z)
    by (unfold fexp, emin, prec64, emax64; lia).
  rewrite Hf. unfold shl_align.
  destruct (Z.pos (digits2_pos p) - 53 - 0)%Z as [|k|k] eqn:Ek; try lia.
  - replace (53 - Z.pos (digits2_pos p))%Z with 0%Z by lia. cbn [widen].
    replace (Z.pos (digits2_pos p) - 53)%Z with 0%Z by lia.
    apply binary_round_aux_full; [unfold prec64 | discriminate | discriminate].
    lia.
  - replace (53 - Z.pos (digits2_pos p))%Z with (Z.pos k) by lia. cbn [widen].
    apply binary_round_aux_full.
    + rewrite iter_xO_digits. unfold prec64. lia.
    + unfold emin, prec64, emax64. lia.
    + unfold prec64, emax64. lia.
Qed.

Lemma to_f32_small (p : positive) :
  (Z.pos (digits2_pos p) <= 24)%Z ->
  to_f32 (S754_finite false (widen p (53 - Z.pos (digits2_pos p)))
                      (Z.pos (digits2_pos p) - 53))
  = S754_finite false (widen p (24 - Z.pos (digits2_pos p)))
                (Z.pos (digits2_pos p) - 24).
Proof.
  intros Hd. set (d := Z.pos (digits2_pos p)) in *.
  assert (Hd1 : (1 <= d)%Z) by (unfold d; lia).
  cbn [to_f32]. unfold binary_round.
  rewrite widen_digits by lia. fold d.
  assert (Hf : fexp prec32 emax32 (d + (53 - d) + (d - 53)) = (d - 24)%Z)
    by (unfold fexp, emin, prec32, emax32; lia).
  rewrite Hf. unfold shl_align.
  destruct (d - 24 - (d - 53))%Z as [|k|k] eqn:Ek; try lia.
  assert (Hw : widen p (53 - d) = widen (widen p (24 - d)) 29).
  { apply Pos2Z.inj. rewrite !widen_value by lia.
    rewrite <- Z.mul_assoc, <- Z.pow_add_r by lia. do 2 f_equal. lia. }
  rewrite Hw.
  replace (S754_finite false (widen p (24 - d)) (d - 24))
    with (S754_finite false (widen p (24 - d)) (d - 53 + 29))
    by (f_equal; lia).
  apply binary_round_aux_zero_bits.
  - rewrite widen_digits by lia. fold d. unfold prec32. lia.
  - lia.
  - unfold emin, prec32, emax32. lia.
  - unfold prec32, emax32. lia.
Qed.

Lemma integer_value_widen (p : positive) (k : Z) :
  (0 <= k)%Z -> integer_value (S754_finite false (widen p k) (- k)) = Some (Z.pos p).
Proof.
  intros Hk. cbn [integer_value cond_Zopp]. rewrite widen_value by exact Hk.
  destruct (Z.leb_spec 0 (- k)) as [H|H].
  - replace k with 0%Z by lia. simpl. f_equal. lia.
  - rewrite Z.opp_involutive.
    rewrite Z.mod_mul by (apply Z.pow_nonzero; lia).
    rewrite Z.eqb_refl, Z.div_mul by (apply Z.pow_nonzero; lia).
    reflexivity.
Qed.

(** An integer from 0 to 2^24 - 1 becomes, through [float(n)] and the cast
    to float32, a finite float that stands for the same integer. *)
Lemma small_integer_cast (n : Z) :
  (0 <= n < 2 ^ 24)%Z ->
  is_finite (to_f32 (f64_of_Z n)) = true /\
  integer_value (to_f32 (f64_of_Z n)) = Some n.
Proof.
  intros [H0 Hn]. destruct n as [|p|p]; try lia.
  - split; reflexivity.
  - pose proof (digits2_small p 24 ltac:(lia) Hn) as Hd.
    rewrite f64_of_Z_small by lia. rewrite to_f32_small by exact Hd.
    split; [reflexivity|].
    replace (Z.pos (digits2_pos p) - 24)%Z
      with (- (24 - Z.pos (digits2_pos p)))%Z by lia.
    apply integer_value_widen. lia.
Qed.

End ExactIntegers.

(** ** More on the application's [extract_features] *)

Section OnlineMore.
Context `{cv : OpenCV}.
Import FeatureExtractor Exact.

(** X10.  [None], an array that is not 2-D and an array without elements
    give the zero vector of 7 fields. *)
Theorem degenerate_input_gives_zero_vector (img : ndarray) :
  ndim img <> 2%nat \/ size img = 0%nat ->
  extract_features (Some img) = zeros FEATURE_VECTOR_SIZE /\
  extract_features None = zeros FEATURE_VECTOR_SIZE.
Proof.
  intros H. split; [|reflexivity].
  unfold extract_features.
  destruct H as [H|H].
  - apply Nat.eqb_neq in H. now rewrite H.
  - rewrite H. cbn [Nat.eqb]. now rewrite orb_true_r.
Qed.

Lemma f64_of_Z_positive (n : Z) : (0 < n)%Z -> is_positive (f64_of_Z n) = true.
Proof.
  intros Hn. destruct n as [|p|p]; try lia.
  apply binary_normalize_positive; [reflexivity | discriminate].
Qed.

Lemma f64_div_zero_positive (x : float) :
  is_positive x = true -> f64_div pos_zero x = pos_zero.
Proof.
  destruct x as [s|s| |s m e]; try destruct s; simpl; intros H;
    try discriminate H; reflexivity.
Qed.

Lemma zero_over_diagonal (diagonal : float) :
  (if flt pos_zero diagonal then f64_div pos_zero diagonal else pos_zero)
  = pos_zero.
Proof. destruct diagonal as [s|s| |s m e]; try destruct s; reflexivity. Qed.

(** X11.  An image without foreground, of any size: when OpenCV counts no
    pixel, reports a zero moment and finds no contour, the feature vector
    is the aspect ratio [w / h] followed by six zeros. *)
Theorem all_background_image_features
        (img : ndarray) (h w : nat) (cs : list contour) :
  shape img = [h; w] -> h <> 0%nat -> w <> 0%nat ->
  countNonZero img = 0%Z ->
  feq (m00 (moments img)) pos_zero = true ->
  findContours (copyMakeBorder img) = (cs, None) ->
  extract_features (Some img)
  = (let x := to_f32 (int_truediv (Z.of_nat w) (Z.of_nat h)) in
     if is_nan x then pos_zero else if is_inf x then pos_zero else x)
    :: zeros 6.
Proof.
  intros Hs Hh Hw Hc Hm Hf. unfold extract_features, ndim, size. rewrite Hs.
  cbn [fold_right length Nat.eqb negb orb].
  assert (E1 : (h * (w * 1) =? 0)%nat = false) by (apply Nat.eqb_neq; nia).
  assert (E2 : ((h =? 0) || (w =? 0))%nat = false)
    by (apply orb_false_iff; split; now apply Nat.eqb_neq).
  assert (Ht : (0 <? Z.of_nat (h * w))%Z = true) by (apply Z.ltb_lt; nia).
  assert (Hd : f64_div pos_zero (f64_of_Z (Z.of_nat (h * w))) = pos_zero)
    by (apply f64_div_zero_positive, f64_of_Z_positive; nia).
  rewrite E1, E2, Hf, Hc, Hm, Ht. cbn [negb].
  rewrite zero_over_diagonal, Hd.
  unfold int_truediv at 2. change (f64_of_Z 0) with pos_zero. rewrite Hd.
  unfold inf_to_zero, nan_to_zero. cbn [map to_f32 is_nan is_inf pos_zero zeros repeat].
  f_equal.
  destruct (to_f32 (int_truediv (Z.of_nat w) (Z.of_nat h))); reflexivity.
Qed.

(** X12.  The fifth field is the number of contours that have a parent,
    without rounding and untouched by the NaN and infinity pass, as long as
    there are fewer than 2^24 of them. *)
Theorem hole_count_field_is_exact
        (img : ndarray) (h w : nat) (cs : list contour)
        (rows : list hierarchy_row) :
  shape img = [h; w] -> h <> 0%nat -> w <> 0%nat ->
  findContours (copyMakeBorder img) = (cs, Some rows) ->
  (Z.of_nat (length (filter has_parent rows)) < 2 ^ 24)%Z ->
  exists x,
    nth_error (extract_features (Some img)) 4 = Some x /\
    is_finite x = true /\
    integer_value x = Some (Z.of_nat (length (filter has_parent rows))).
Proof.
  intros Hs Hh Hw Hf Hn.
  rewrite (online_hole_count img h w cs rows Hs Hh Hw Hf). cbv zeta.
  destruct (small_integer_cast (Z.of_nat (length (filter has_parent rows))))
    as [Hfin Hval]; [lia|].
  eexists. split; [reflexivity|].
  destruct (to_f32 (f64_of_Z (Z.of_nat (length (filter has_parent rows)))));
    try discriminate Hfin; cbn [is_nan is_inf]; auto.
Qed.

End OnlineMore.

Lemma degenerate_input_gives_zero_vector_witness :
  (ndim {| shape := [0; 5]%nat; item := fun _ _ => 0%Z |} <> 2%nat \/
   size {| shape := [0; 5]%nat; item := fun _ _ => 0%Z |} = 0%nat) /\
  (@FeatureExtractor.extract_features (Fixtures.reference_cv (fun _ => []))
     (Some {| shape := [0; 5]%nat; item := fun _ _ => 0%Z |})
   = zeros FeatureExtractor.FEATURE_VECTOR_SIZE /\
   @FeatureExtractor.extract_features (Fixtures.reference_cv (fun _ => [])) None
   = zeros FeatureExtractor.FEATURE_VECTOR_SIZE).
Proof.
  assert (H : ndim {| shape := [0; 5]%nat; item := fun _ _ => 0%Z |} <> 2%nat \/
              size {| shape := [0; 5]%nat; item := fun _ _ => 0%Z |} = 0%nat)
    by (right; reflexivity).
  split; [exact H|].
  apply (@degenerate_input_gives_zero_vector
           (Fixtures.reference_cv (fun _ => [])) _ H).
Defined.

Lemma all_background_image_features_witness :
  shape Fixtures.img_empty = [50; 50]%nat /\ 50%nat <> 0%nat /\ 50%nat <> 0%nat /\
  @countNonZero (Fixtures.reference_cv (fun _ => [])) Fixtures.img_empty = 0%Z /\
  feq (m00 (@moments (Fixtures.reference_cv (fun _ => [])) Fixtures.img_empty))
      pos_zero = true /\
  @findContours (Fixtures.reference_cv (fun _ => []))
     (@copyMakeBorder (Fixtures.reference_cv (fun _ => [])) Fixtures.img_empty)
  = ([], None) /\
  @FeatureExtractor.extract_features (Fixtures.reference_cv (fun _ => [])) (Some Fixtures.img_empty)
  = (let x := to_f32 (int_truediv (Z.of_nat 50) (Z.of_nat 50)) in
     if is_nan x then pos_zero else if is_inf x then pos_zero else x)
    :: zeros 6.
Proof.
  split; [reflexivity|]. split; [discriminate|]. split; [discriminate|].
  split; [vm_compute; reflexivity|]. split; [vm_compute; reflexivity|].
  split; [reflexivity|].
  apply (@all_background_image_features
           (Fixtures.reference_cv (fun _ => [])) Fixtures.img_empty 50 50 []).
  - reflexivity.
  - discriminate.
  - discriminate.
  - vm_compute. reflexivity.
  - vm_compute. reflexivity.
  - reflexivity.
Defined.

Lemma hole_count_field_is_exact_witness :
  shape Fixtures.img_dotted_zero = [7; 7]%nat /\
  7%nat <> 0%nat /\ 7%nat <> 0%nat /\
  @findContours Fixtures.cv_dotted_zero
     (@copyMakeBorder Fixtures.cv_dotted_zero Fixtures.img_dotted_zero)
  = (map fst (Fixtures.dotted_zero_contours 1),
     Some (map snd (Fixtures.dotted_zero_contours 1))) /\
  (Z.of_nat (length (filter has_parent
                            (map snd (Fixtures.dotted_zero_contours 1))))
   < 2 ^ 24)%Z /\
  exists x,
    nth_error (@FeatureExtractor.extract_features Fixtures.cv_dotted_zero
                 (Some Fixtures.img_dotted_zero)) 4 = Some x /\
    is_finite x = true /\
    Exact.integer_value x
    = Some (Z.of_nat (length (filter has_parent
                                     (map snd (Fixtures.dotted_zero_contours 1))))).
Proof.
  split; [reflexivity|]. split; [discriminate|]. split; [discriminate|].
  split; [reflexivity|]. split; [reflexivity|].
  apply (@hole_count_field_is_exact Fixtures.cv_dotted_zero
           Fixtures.img_dotted_zero 7 7
           (map fst (Fixtures.dotted_zero_contours 1))
           (map snd (Fixtures.dotted_zero_contours 1)));
    try reflexivity; discriminate.
Defined.

(** ** More on the database builder *)

Section BuilderMore.
Context `{cv : OpenCV} `{rd : Renderer}.
Import BuildFontDatabase PyDict Exact.

(** X13.  The builder's fifth field is the number of rows whose parent is
    the first root contour, without rounding, as long as there are fewer
    than 2^24 of them. *)
Theorem builder_hole_count_is_exact
        (glyph_img : ndarray) (cs : list contour) (rows : list hierarchy_row)
        (idx : nat) (outer : contour) (v : vec) :
  findContours glyph_img = (cs, Some rows) ->
  first_root 0 (combine cs rows) = Some (idx, outer) ->
  extract_features glyph_img = Some v ->
  (count_children rows idx < 2 ^ 24)%Z ->
  exists x,
    nth_error v 4 = Some x /\
    is_finite x = true /\
    integer_value x = Some (count_children rows idx).
Proof.
  intros Hf Hr Hv Hn. unfold extract_features in Hv. rewrite Hf in Hv.
  destruct cs as [|c cs]; [discriminate Hv|]. rewrite Hr in Hv.
  destruct (boundingRect outer) as [[[x y] w] h].
  destruct ((h =? 0) || (w =? 0))%nat; [discriminate Hv|].
  destruct (feq (m00 (contour_moments outer)) pos_zero); [discriminate Hv|].
  injection Hv as <-.
  destruct (small_integer_cast (count_children rows idx)) as [Hfin Hval].
  { split; [unfold count_children; lia | exact Hn]. }
  eexists. split; [reflexivity|]. auto.
Qed.

Lemma children_have_a_parent (rows : list hierarchy_row) (idx : nat) :
  (length (filter (fun row => (h_parent row =? Z.of_nat idx)%Z) rows)
   <= length (filter has_parent rows))%nat.
Proof.
  induction rows as [|r rs IH]; [reflexivity|].
  cbn [filter]. unfold has_parent at 1.
  destruct (h_parent r =? Z.of_nat idx)%Z eqn:E.
  - apply Z.eqb_eq in E.
    replace (h_parent r =? -1)%Z with false
      by (symmetry; apply Z.eqb_neq; lia).
    cbn [negb length]. now apply le_n_S.
  - destruct (negb (h_parent r =? -1)%Z); cbn [length]; lia.
Qed.

(** X14.  For one contour tree the builder never counts more holes than the
    application: a child of the first root is a contour with a parent. *)
Theorem builder_counts_at_most_the_application
        (contours : list contour) (rows : list hierarchy_row) (idx : nat) :
  length rows = length contours ->
  (count_children rows idx <= FeatureExtractor.count_holes contours rows)%Z.
Proof.
  intros Hl. rewrite (count_holes_spec contours rows Hl).
  unfold count_children. apply inj_le, children_have_a_parent.
Qed.

End BuilderMore.

(** ** The dictionary [main] builds *)

Section BuilderMain.
Context `{cv : OpenCV} `{rd : Renderer}.
Import BuildFontDatabase PyDict.

Lemma dict_set_keys {V : Type} (d : list (string * V)) (key : string) (value : V) :
  keys (dict_set d key value)
  = if existsb (fun k => String.eqb k key) (keys d) then keys d
    else keys d ++ [key].
Proof.
  unfold keys. induction d as [|[k v] rest IH]; [reflexivity|].
  cbn [dict_set map existsb fst].
  destruct (String.eqb k key) eqn:E; [reflexivity|].
  cbn [map fst orb]. rewrite IH.
  now destruct (existsb (fun k0 => String.eqb k0 key) (map fst rest)).
Qed.

Lemma dict_set_In_keys {V : Type} (d : list (string * V)) (key : string)
      (value : V) (k : string) :
  In k (keys (dict_set d key value)) <-> In k (keys d) \/ k = key.
Proof.
  rewrite dict_set_keys.
  destruct (existsb (fun k0 => String.eqb k0 key) (keys d)) eqn:E.
  - split; [tauto|]. intros [H| ->]; [exact H|].
    apply existsb_exists in E. destruct E as (k0 & Hk0 & E).
    apply String.eqb_eq in E. now subst.
  - rewrite in_app_iff. simpl. intuition.
Qed.

Lemma dict_set_NoDup {V : Type} (d : list (string * V)) (key : string) (value : V) :
  NoDup (keys d) -> NoDup (keys (dict_set d key value)).
Proof.
  intros Hd. rewrite dict_set_keys.
  destruct (existsb (fun k0 => String.eqb k0 key) (keys d)) eqn:E; [exact Hd|].
  apply NoDup_app; [exact Hd | repeat constructor; simpl; tauto |].
  intros k Hk [Ek|[]].
  assert (Ht : existsb (fun k0 => String.eqb k0 key) (keys d) = true)
    by (apply existsb_exists; exists k; split;
        [exact Hk | rewrite Ek; apply String.eqb_refl]).
  congruence.
Qed.

Lemma dict_set_length {V : Type} (d : list (string * V)) (key : string) (value : V) :
  (length (dict_set d key value) <= S (length d))%nat.
Proof.
  induction d as [|[k v] rest IH]; cbn [dict_set length]; [lia|].
  destruct (String.eqb k key); cbn [length]; lia.
Qed.

Lemma dict_get_set_same {V : Type} (d : list (string * V)) (key : string) (value : V) :
  dict_get (dict_set d key value) key = Some value.
Proof.
  induction d as [|[k v] rest IH]; cbn [dict_set dict_get].
  - now rewrite String.eqb_refl.
  - destruct (String.eqb k key) eqn:E; cbn [dict_get]; rewrite E; auto.
Qed.

Lemma dict_get_set_other {V : Type} (d : list (string * V)) (key k' : string)
      (value : V) :
  k' <> key -> dict_get (dict_set d key value) k' = dict_get d k'.
Proof.
  intros Hne. induction d as [|[k v] rest IH]; cbn [dict_set dict_get].
  - replace (String.eqb key k') with false; [reflexivity|].
    symmetry. apply String.eqb_neq. congruence.
  - destruct (String.eqb k key) eqn:E; cbn [dict_get].
    + apply String.eqb_eq in E. subst k.
      replace (String.eqb key k') with false; [reflexivity|].
      symmetry. apply String.eqb_neq. congruence.
    + now rewrite IH.
Qed.

Lemma build_cons (fp : font_path) (rest : list font_path)
      (font_database : list (string * vec)) :
  build (fp :: rest) font_database
  = match char_features fp with
    | [] => build rest font_database
    | first :: others =>
        mean_vector <- mean_axis0 first others ;;
        build rest (dict_set font_database (name fp) mean_vector)
    end.
Proof. reflexivity. Qed.

Lemma bind_Ok {S T : Type} (a : S) (k : S -> result T) :
  (x <- Ok a ;; k x) = k a.
Proof. reflexivity. Qed.

Lemma build_nil (font_database : list (string * vec)) :
  build [] font_database = Ok font_database.
Proof. reflexivity. Qed.

(** The mean of a font's vectors exists: they all have five fields. *)
Lemma font_mean_exists (fp : font_path) (first : vec) (others : list vec) :
  char_features fp = first :: others ->
  exists m, mean_axis0 first others = Ok m.
Proof.
  intros E. pose proof (char_features_length fp) as H. rewrite E in H.
  destruct (mean_axis0_length 5 first others H) as (m & Hm & _). eauto.
Qed.

Lemma build_returns (font_paths : list font_path) :
  forall font_database, exists db, build font_paths font_database = Ok db.
Proof.
  induction font_paths as [|fp rest IH]; intros db; [rewrite build_nil; eauto | rewrite build_cons].
  destruct (char_features fp) as [|first others] eqn:E; [apply IH|].
  destruct (font_mean_exists fp first others E) as [m ->]. cbn [bind]. apply IH.
Qed.

Lemma build_invariant (P : list (string * vec) -> Prop)
      (font_paths : list font_path) :
  (forall d fp m, P d -> In fp font_paths -> char_features fp <> [] ->
                  P (dict_set d (name fp) m)) ->
  forall font_database db,
    P font_database -> build font_paths font_database = Ok db -> P db.
Proof.
  induction font_paths as [|fp rest IH]; intros Hstep d0 db H0 Hb;
    [rewrite build_nil in Hb | rewrite build_cons in Hb].
  - now injection Hb as <-.
  - assert (Hrest : forall d fp' m, P d -> In fp' rest ->
                                    char_features fp' <> [] ->
                                    P (dict_set d (name fp') m))
      by (intros; apply Hstep; [assumption | right; assumption | assumption]).
    destruct (char_features fp) as [|first others] eqn:E.
    + exact (IH Hrest d0 db H0 Hb).
    + destruct (mean_axis0 first others) as [m|]; [|discriminate Hb].
      cbn [bind] in Hb.
      apply (IH Hrest (dict_set d0 (name fp) m) db); [|exact Hb].
      apply Hstep; [exact H0 | left; reflexivity | rewrite E; discriminate].
Qed.

(** X15.  [main] returns a dictionary: no font name occurs twice in it, and
    it has at most one entry per font file. *)
Theorem database_keys_are_distinct (font_paths : list font_path) :
  exists db,
    main font_paths = Ok db /\
    NoDup (keys db) /\
    (length db <= length font_paths)%nat.
Proof.
  unfold main. destruct (build_returns font_paths []) as [db Hb].
  exists db. split; [exact Hb|]. split.
  - apply (build_invariant (fun d => NoDup (keys d)) font_paths) with (font_database := []);
      [| constructor | exact Hb].
    intros d fp m Hd _ _. now apply dict_set_NoDup.
  - assert (G : forall l d0 d, build l d0 = Ok d ->
                               (length d <= length d0 + length l)%nat).
    { clear. induction l as [|fp rest IH]; intros d0 d Hb;
        [rewrite build_nil in Hb | rewrite build_cons in Hb].
      - injection Hb as <-. cbn [length]. lia.
      - destruct (char_features fp) as [|first others].
        + apply IH in Hb. cbn [length]. lia.
        + destruct (mean_axis0 first others) as [m|]; [|discriminate Hb].
          cbn [bind] in Hb. apply IH in Hb.
          pose proof (dict_set_length d0 (name fp) m). cbn [length]. lia. }
    apply G in Hb. cbn [length] in Hb. exact Hb.
Qed.

Lemma build_keys (font_paths : list font_path) :
  forall font_database db k,
    build font_paths font_database = Ok db ->
    (In k (keys db) <->
     In k (keys font_database) \/
     exists fp, In fp font_paths /\ name fp = k /\ char_features fp <> []).
Proof.
  induction font_paths as [|fp rest IH]; intros d0 db k Hb;
    [rewrite build_nil in Hb | rewrite build_cons in Hb].
  - injection Hb as <-. split; [intros H; left; exact H|].
    intros [H|(fp & [] & _)]. exact H.
  - destruct (char_features fp) as [|first others] eqn:E.
    + rewrite (IH _ _ k Hb). split.
      * intros [H|(fp' & Hin & Hn & Hc)]; [left; exact H|].
        right. exists fp'. split; [right; exact Hin | split; assumption].
      * intros [H|(fp' & [<-|Hin] & Hn & Hc)]; [left; exact H | congruence |].
        right. exists fp'. split; [exact Hin | split; assumption].
    + destruct (mean_axis0 first others) as [m|]; [|discriminate Hb].
      cbn [bind] in Hb. rewrite (IH _ _ k Hb), dict_set_In_keys. split.
      * intros [[H|H]|(fp' & Hin & Hn & Hc)]; [left; exact H | |].
        -- right. exists fp. split; [left; reflexivity|].
           split; [symmetry; exact H | rewrite E; discriminate].
        -- right. exists fp'. split; [right; exact Hin | split; assumption].
      * intros [H|(fp' & [<-|Hin] & Hn & Hc)].
        -- left. left. exact H.
        -- left. right. symmetry. exact Hn.
        -- right. exists fp'. split; [exact Hin | split; assumption].
Qed.

(** X16.  The fonts of the database are the font files of which at least
    one glyph gave a feature vector: a font without any is left out, every
    other font is in. *)
Theorem database_holds_the_fonts_with_features
        (font_paths : list font_path) (db : list (string * vec))
        (font_name : string) :
  main font_paths = Ok db ->
  (In font_name (keys db) <->
   exists fp, In fp font_paths /\ name fp = font_name /\ char_features fp <> []).
Proof.
  intros Hb. rewrite (build_keys font_paths [] db font_name Hb).
  split; [intros [[]|H]; exact H | intros H; right; exact H].
Qed.

Lemma build_app (l1 l2 : list font_path) :
  forall font_database,
    build (l1 ++ l2) font_database
    = (d <- build l1 font_database ;; build l2 d).
Proof.
  induction l1 as [|fp rest IH]; intros d0; cbn [app];
    [rewrite build_nil; reflexivity | rewrite !build_cons].
  destruct (char_features fp) as [|first others]; [apply IH|].
  destruct (mean_axis0 first others) as [m|]; cbn [bind]; [apply IH | reflexivity].
Qed.

Lemma build_keeps_other_names (font_paths : list font_path) (k : string) :
  (forall fp, In fp font_paths -> name fp = k -> char_features fp = []) ->
  forall font_database db,
    build font_paths font_database = Ok db ->
    dict_get db k = dict_get font_database k.
Proof.
  induction font_paths as [|fp rest IH]; intros Hk d0 db Hb;
    [rewrite build_nil in Hb | rewrite build_cons in Hb].
  - now injection Hb as <-.
  - assert (Hrest : forall fp', In fp' rest -> name fp' = k ->
                                char_features fp' = [])
      by (intros fp' Hin Hn; apply Hk; [right; exact Hin | exact Hn]).
    destruct (char_features fp) as [|first others] eqn:E.
    + exact (IH Hrest d0 db Hb).
    + destruct (mean_axis0 first others) as [m|]; [|discriminate Hb].
      cbn [bind] in Hb. rewrite (IH Hrest _ db Hb).
      apply dict_get_set_other. intros Hn.
      specialize (Hk fp (or_introl eq_refl) (eq_sym Hn)). congruence.
Qed.

(** X17.  The fingerprint stored under a font's file name is the mean of
    that font's feature vectors; when several font files share the name,
    it is the mean of the last of them that has feature vectors. *)
Theorem stored_fingerprint_is_the_mean
        (before after : list font_path) (fp : font_path)
        (first : vec) (others : list vec) (db : list (string * vec)) :
  main (before ++ fp :: after) = Ok db ->
  char_features fp = first :: others ->
  (forall fp', In fp' after -> name fp' = name fp -> char_features fp' = []) ->
  exists mean_vector,
    mean_axis0 first others = Ok mean_vector /\
    dict_get db (name fp) = Some mean_vector.
Proof.
  unfold main. intros Hb Hc Hafter.
  rewrite build_app in Hb.
  destruct (build_returns before []) as [d1 H1]. rewrite H1 in Hb.
  rewrite bind_Ok, build_cons, Hc in Hb.
  destruct (font_mean_exists fp first others Hc) as [m Hm].
  rewrite Hm, bind_Ok in Hb.
  exists m. split; [exact Hm|].
  rewrite (build_keeps_other_names after (name fp) Hafter _ db Hb).
  apply dict_get_set_same.
Qed.

(** X18.  A database built by [main] never answers a query of vectors of
    the application's extractor: the stored fingerprints have five fields,
    the query vectors seven, every entry is skipped and the result is empty.
    This holds for every font list, every list of images and every
    behaviour of OpenCV and of the renderer. *)
Theorem built_database_matches_no_query
        (font_paths : list font_path) (images : list (option ndarray))
        (top_n : Z) :
  exists db,
    main font_paths = Ok db /\
    find_best_matches (Some db)
                      (map FeatureExtractor.extract_features images) top_n
    = Ok [].
Proof.
  unfold main.
  destruct (build_stores_five font_paths [] (Forall_nil _)) as (db & E & H5).
  exists db. split; [exact E|].
  destruct images as [|img images]; [destruct db; reflexivity|].
  cbn [map].
  assert (H7 : Forall (fun v => length v = 7%nat)
                      (FeatureExtractor.extract_features img
                       :: map FeatureExtractor.extract_features images)).
  { apply Forall_forall. intros v [<-|Hv].
    - destruct (extract_features_sanitized img) as (w & Hw & ->).
      now rewrite sanitized_length.
    - apply in_map_iff in Hv. destruct Hv as (i & <- & _).
      destruct (extract_features_sanitized i) as (w & Hw & ->).
      now rewrite sanitized_length. }
  destruct (mean_axis0_length 7 _ _ H7) as (target & Hm & Ht).
  destruct (find_best_matches_scores db _ _ top_n target Hm)
    as (scores & HF & ->).
  assert (Hnone : filter (usable target) db = []).
  { clear -H5 Ht. induction H5 as [|e db He _ IH]; [reflexivity|].
    assert (U : usable target e = false)
      by (unfold usable, shape_eqb; apply Nat.eqb_neq; intros X;
          assert (Y : 7%nat = 5%nat)
            by exact (eq_trans (eq_trans (eq_sym Ht) X) He);
          discriminate Y).
    cbn [filter]. rewrite U. exact IH. }
  rewrite Hnone in HF. inversion HF; subst.
  cbn [sort_reverse]. now rewrite slice_to_nil.
Qed.

End BuilderMain.

Lemma builder_hole_count_is_exact_witness :
  @findContours Fixtures.cv_dotted_zero Fixtures.img_dotted_zero
  = (map fst (Fixtures.dotted_zero_contours 0),
     Some (map snd (Fixtures.dotted_zero_contours 0))) /\
  BuildFontDatabase.first_root 0
    (combine (map fst (Fixtures.dotted_zero_contours 0))
             (map snd (Fixtures.dotted_zero_contours 0)))
  = Some (0%nat, [(0, 0); (0, 6); (6, 6); (6, 0)]%Z) /\
  @BuildFontDatabase.extract_features Fixtures.cv_dotted_zero
     Fixtures.img_dotted_zero
  = Some Samples.dotted_zero_vector /\
  (BuildFontDatabase.count_children
     (map snd (Fixtures.dotted_zero_contours 0)) 0 < 2 ^ 24)%Z /\
  exists x,
    nth_error Samples.dotted_zero_vector 4 = Some x /\
    is_finite x = true /\
    Exact.integer_value x
    = Some (BuildFontDatabase.count_children
              (map snd (Fixtures.dotted_zero_contours 0)) 0).
Proof.
  split; [reflexivity|]. split; [reflexivity|].
  split; [vm_compute; reflexivity|]. split; [reflexivity|].
  apply (@builder_hole_count_is_exact Fixtures.cv_dotted_zero
           Fixtures.img_dotted_zero
           (map fst (Fixtures.dotted_zero_contours 0))
           (map snd (Fixtures.dotted_zero_contours 0))
           0%nat [(0, 0); (0, 6); (6, 6); (6, 0)]%Z
           Samples.dotted_zero_vector).
  - reflexivity.
  - reflexivity.
  - vm_compute. reflexivity.
  - reflexivity.
Defined.

Lemma builder_counts_at_most_the_application_witness :
  length (map snd (Fixtures.dotted_zero_contours 0))
  = length (map fst (Fixtures.dotted_zero_contours 0)) /\
  (BuildFontDatabase.count_children (map snd (Fixtures.dotted_zero_contours 0)) 0
   <= FeatureExtractor.count_holes
        (map fst (Fixtures.dotted_zero_contours 0))
        (map snd (Fixtures.dotted_zero_contours 0)))%Z.
Proof.
  split; [reflexivity|].
  apply (builder_counts_at_most_the_application
           (map fst (Fixtures.dotted_zero_contours 0))
           (map snd (Fixtures.dotted_zero_contours 0)) 0).
  reflexivity.
Defined.

Lemma database_holds_the_fonts_with_features_witness :
  @BuildFontDatabase.main Fixtures.cv_dotted_zero Samples.only_mono
     [Samples.symbols_ttf; Fixtures.mono_ttf]
  = Ok [("mono.ttf"%string, Samples.dotted_zero_vector)] /\
  (In "symbols.ttf"%string
      (PyDict.keys [("mono.ttf"%string, Samples.dotted_zero_vector)]) <->
   exists fp,
     In fp [Samples.symbols_ttf; Fixtures.mono_ttf] /\
     Pillow.name fp = "symbols.ttf"%string /\
     @BuildFontDatabase.char_features Fixtures.cv_dotted_zero Samples.only_mono fp
     <> []).
Proof.
  split; [vm_compute; reflexivity|].
  apply (@database_holds_the_fonts_with_features
           Fixtures.cv_dotted_zero Samples.only_mono
           [Samples.symbols_ttf; Fixtures.mono_ttf]).
  vm_compute. reflexivity.
Defined.

Lemma stored_fingerprint_is_the_mean_witness :
  @BuildFontDatabase.main Fixtures.cv_dotted_zero Samples.only_mono
     ([Fixtures.mono_ttf] ++ Samples.mono_copy :: [Samples.symbols_ttf])
  = Ok [("mono.ttf"%string, Samples.dotted_zero_vector)] /\
  @BuildFontDatabase.char_features Fixtures.cv_dotted_zero Samples.only_mono
     Samples.mono_copy
  = Samples.dotted_zero_vector :: [] /\
  (forall fp', In fp' [Samples.symbols_ttf] ->
               Pillow.name fp' = Pillow.name Samples.mono_copy ->
               @BuildFontDatabase.char_features
                 Fixtures.cv_dotted_zero Samples.only_mono fp' = []) /\
  exists mean_vector,
    mean_axis0 Samples.dotted_zero_vector [] = Ok mean_vector /\
    PyDict.dict_get [("mono.ttf"%string, Samples.dotted_zero_vector)]
                    (Pillow.name Samples.mono_copy)
    = Some mean_vector.
Proof.
  assert (Hafter : forall fp', In fp' [Samples.symbols_ttf] ->
               Pillow.name fp' = Pillow.name Samples.mono_copy ->
               @BuildFontDatabase.char_features
                 Fixtures.cv_dotted_zero Samples.only_mono fp' = []).
  { intros fp' [<-|[]] _. vm_compute. reflexivity. }
  split; [vm_compute; reflexivity|]. split; [vm_compute; reflexivity|].
  split; [exact Hafter|].
  apply (@stored_fingerprint_is_the_mean
           Fixtures.cv_dotted_zero Samples.only_mono
           [Fixtures.mono_ttf] [Samples.symbols_ttf] Samples.mono_copy
           Samples.dotted_zero_vector []
           [("mono.ttf"%string, Samples.dotted_zero_vector)]).
  - vm_compute. reflexivity.
  - vm_compute. reflexivity.
  - exact Hafter.
Defined.

(** ** [render_char] *)

Section Rendering.
Context `{pil : RenderChar.ImageFont}.
Import RenderChar.

Lemma pasted_inside (glyph : nat -> nat -> Z) (tw th px py : Z) (r c : nat) :
  pasted glyph tw th px py r c <> 0%Z ->
  (py <= Z.of_nat r < py + th)%Z /\ (px <= Z.of_nat c < px + tw)%Z.
Proof.
  unfold pasted.
  destruct (Z.leb_spec 0 (Z.of_nat r - py)), (Z.ltb_spec (Z.of_nat r - py) th),
           (Z.leb_spec 0 (Z.of_nat c - px)), (Z.ltb_spec (Z.of_nat c - px) tw);
    cbn [andb]; intros Hne; try congruence; lia.
Qed.

(** X19.  A rendered glyph: the array has the canvas's height and width,
    the ink box is centred in it, with margins that differ by at most one
    pixel (the larger one on the right and at the bottom), and every pixel
    outside the box is background. *)
Theorem rendered_glyph_is_centred
        (fp : font_path) (char : ascii) (font_size : nat)
        (canvas_size : nat * nat) (img : ndarray) :
  render_char fp char font_size canvas_size = Some img ->
  exists fnt x0 y0 x1 y1,
    truetype (path fp) font_size = Some fnt /\
    getbbox fnt char = Some (x0, y0, x1, y1) /\
    let text_width := (x1 - x0)%Z in
    let text_height := (y1 - y0)%Z in
    let paste_x := ((Z.of_nat (fst canvas_size) - text_width) / 2)%Z in
    let paste_y := ((Z.of_nat (snd canvas_size) - text_height) / 2)%Z in
    (0 < text_width)%Z /\ (0 < text_height)%Z /\
    shape img = [snd canvas_size; fst canvas_size] /\
    (0 <= (Z.of_nat (fst canvas_size) - (paste_x + text_width)) - paste_x <= 1)%Z /\
    (0 <= (Z.of_nat (snd canvas_size) - (paste_y + text_height)) - paste_y <= 1)%Z /\
    forall r c,
      item img r c <> 0%Z ->
      (paste_y <= Z.of_nat r < paste_y + text_height)%Z /\
      (paste_x <= Z.of_nat c < paste_x + text_width)%Z.
Proof.
  unfold render_char. intros H.
  destruct (truetype (path fp) font_size) as [fnt|] eqn:Et; [|discriminate H].
  destruct (getbbox fnt char) as [[[[x0 y0] x1] y1]|] eqn:Eb; [|discriminate H].
  destruct (Z.leb_spec (x1 - x0) 0); [discriminate H|].
  destruct (Z.leb_spec (y1 - y0) 0); [discriminate H|].
  cbn [orb] in H. injection H as <-.
  exists fnt, x0, y0, x1, y1. cbv zeta.
  pose proof (Z.div_mod (Z.of_nat (fst canvas_size) - (x1 - x0)) 2 ltac:(lia)) as Dx.
  pose proof (Z.mod_pos_bound (Z.of_nat (fst canvas_size) - (x1 - x0)) 2 ltac:(lia)) as Mx.
  pose proof (Z.div_mod (Z.of_nat (snd canvas_size) - (y1 - y0)) 2 ltac:(lia)) as Dy.
  pose proof (Z.mod_pos_bound (Z.of_nat (snd canvas_size) - (y1 - y0)) 2 ltac:(lia)) as My.
  split; [reflexivity|]. split; [exact Eb|].
  split; [assumption|]. split; [assumption|].
  split; [reflexivity|]. split; [lia|]. split; [lia|].
  intros r c Hne. cbn [item] in Hne. now apply pasted_inside in Hne.
Qed.

(** X20.  A glyph that fits on the canvas is copied whole: every pixel of
    the glyph image is on the canvas, at its place in the centred box. *)
Theorem fitting_glyph_is_copied_whole
        (fp : font_path) (char : ascii) (font_size : nat)
        (canvas_size : nat * nat) (img : ndarray)
        (fnt : font) (x0 y0 x1 y1 : Z) (gr gc : nat) :
  render_char fp char font_size canvas_size = Some img ->
  truetype (path fp) font_size = Some fnt ->
  getbbox fnt char = Some (x0, y0, x1, y1) ->
  (x1 - x0 <= Z.of_nat (fst canvas_size))%Z ->
  (y1 - y0 <= Z.of_nat (snd canvas_size))%Z ->
  (Z.of_nat gr < y1 - y0)%Z -> (Z.of_nat gc < x1 - x0)%Z ->
  let paste_x := Z.to_nat ((Z.of_nat (fst canvas_size) - (x1 - x0)) / 2) in
  let paste_y := Z.to_nat ((Z.of_nat (snd canvas_size) - (y1 - y0)) / 2) in
  (paste_y + gr < snd canvas_size)%nat /\
  (paste_x + gc < fst canvas_size)%nat /\
  item img (paste_y + gr) (paste_x + gc) = glyph_pixel fnt char gr gc.
Proof.
  unfold render_char. intros H Ht Hb Hw Hh Hr Hc. rewrite Ht, Hb in H.
  destruct (Z.leb_spec (x1 - x0) 0); [discriminate H|].
  destruct (Z.leb_spec (y1 - y0) 0); [discriminate H|].
  cbn [orb] in H. injection H as <-. cbv zeta. cbn [item].
  pose proof (Z.div_mod (Z.of_nat (fst canvas_size) - (x1 - x0)) 2 ltac:(lia)) as Dx.
  pose proof (Z.mod_pos_bound (Z.of_nat (fst canvas_size) - (x1 - x0)) 2 ltac:(lia)) as Mx.
  pose proof (Z.div_mod (Z.of_nat (snd canvas_size) - (y1 - y0)) 2 ltac:(lia)) as Dy.
  pose proof (Z.mod_pos_bound (Z.of_nat (snd canvas_size) - (y1 - y0)) 2 ltac:(lia)) as My.
  set (px := ((Z.of_nat (fst canvas_size) - (x1 - x0)) / 2)%Z) in *.
  set (py := ((Z.of_nat (snd canvas_size) - (y1 - y0)) / 2)%Z) in *.
  assert (Hpx : (0 <= px)%Z) by lia.
  assert (Hpy : (0 <= py)%Z) by lia.
  split; [lia|]. split; [lia|].
  unfold pasted.
  replace (Z.of_nat (Z.to_nat py + gr) - py)%Z with (Z.of_nat gr) by lia.
  replace (Z.of_nat (Z.to_nat px + gc) - px)%Z with (Z.of_nat gc) by lia.
  destruct (Z.leb_spec 0 (Z.of_nat gr)), (Z.ltb_spec (Z.of_nat gr) (y1 - y0)),
           (Z.leb_spec 0 (Z.of_nat gc)), (Z.ltb_spec (Z.of_nat gc) (x1 - x0));
    try lia.
  cbn [andb]. now rewrite !Nat2Z.id.
Qed.

End Rendering.

Lemma rendered_glyph_is_centred_witness :
  @RenderChar.render_char Samples.solid_font Fixtures.mono_ttf "a"%char
     BuildFontDatabase.FONT_SIZE BuildFontDatabase.CANVAS_SIZE
  = Some {| shape := [64; 64]%nat;
            item := RenderChar.pasted (fun _ _ => 255%Z) 5 9 29 27 |} /\
  exists fnt x0 y0 x1 y1,
    @RenderChar.truetype Samples.solid_font (Pillow.path Fixtures.mono_ttf)
       BuildFontDatabase.FONT_SIZE = Some fnt /\
    @RenderChar.getbbox Samples.solid_font fnt "a"%char = Some (x0, y0, x1, y1) /\
    let text_width := (x1 - x0)%Z in
    let text_height := (y1 - y0)%Z in
    let paste_x :=
      ((Z.of_nat (fst BuildFontDatabase.CANVAS_SIZE) - text_width) / 2)%Z in
    let paste_y :=
      ((Z.of_nat (snd BuildFontDatabase.CANVAS_SIZE) - text_height) / 2)%Z in
    (0 < text_width)%Z /\ (0 < text_height)%Z /\
    shape {| shape := [64; 64]%nat;
             item := RenderChar.pasted (fun _ _ => 255%Z) 5 9 29 27 |}
    = [snd BuildFontDatabase.CANVAS_SIZE; fst BuildFontDatabase.CANVAS_SIZE] /\
    (0 <= (Z.of_nat (fst BuildFontDatabase.CANVAS_SIZE) - (paste_x + text_width))
          - paste_x <= 1)%Z /\
    (0 <= (Z.of_nat (snd BuildFontDatabase.CANVAS_SIZE) - (paste_y + text_height))
          - paste_y <= 1)%Z /\
    forall r c,
      item {| shape := [64; 64]%nat;
              item := RenderChar.pasted (fun _ _ => 255%Z) 5 9 29 27 |} r c
      <> 0%Z ->
      (paste_y <= Z.of_nat r < paste_y + text_height)%Z /\
      (paste_x <= Z.of_nat c < paste_x + text_width)%Z.
Proof.
  split; [reflexivity|].
  apply (@rendered_glyph_is_centred Samples.solid_font Fixtures.mono_ttf "a"%char
           BuildFontDatabase.FONT_SIZE BuildFontDatabase.CANVAS_SIZE).
  reflexivity.
Defined.

Lemma fitting_glyph_is_copied_whole_witness :
  @RenderChar.render_char Samples.solid_font Fixtures.mono_ttf "a"%char
     BuildFontDatabase.FONT_SIZE BuildFontDatabase.CANVAS_SIZE
  = Some {| shape := [64; 64]%nat;
            item := RenderChar.pasted (fun _ _ => 255%Z) 5 9 29 27 |} /\
  @RenderChar.truetype Samples.solid_font (Pillow.path Fixtures.mono_ttf)
     BuildFontDatabase.FONT_SIZE = Some tt /\
  @RenderChar.getbbox Samples.solid_font tt "a"%char = Some (2, 3, 7, 12)%Z /\
  (7 - 2 <= Z.of_nat (fst BuildFontDatabase.CANVAS_SIZE))%Z /\
  (12 - 3 <= Z.of_nat (snd BuildFontDatabase.CANVAS_SIZE))%Z /\
  (Z.of_nat 8 < 12 - 3)%Z /\ (Z.of_nat 4 < 7 - 2)%Z /\
  let paste_x :=
    Z.to_nat ((Z.of_nat (fst BuildFontDatabase.CANVAS_SIZE) - (7 - 2)) / 2) in
  let paste_y :=
    Z.to_nat ((Z.of_nat (snd BuildFontDatabase.CANVAS_SIZE) - (12 - 3)) / 2) in
  (paste_y + 8 < snd BuildFontDatabase.CANVAS_SIZE)%nat /\
  (paste_x + 4 < fst BuildFontDatabase.CANVAS_SIZE)%nat /\
  item {| shape := [64; 64]%nat;
          item := RenderChar.pasted (fun _ _ => 255%Z) 5 9 29 27 |}
       (paste_y + 8) (paste_x + 4)
  = @RenderChar.glyph_pixel Samples.solid_font tt "a"%char 8 4.
Proof.
  split; [reflexivity|]. split; [reflexivity|]. split; [reflexivity|].
  split; [simpl; lia|]. split; [simpl; lia|].
  split; [simpl; lia|]. split; [simpl; lia|].
  apply (@fitting_glyph_is_copied_whole Samples.solid_font Fixtures.mono_ttf
           "a"%char BuildFontDatabase.FONT_SIZE BuildFontDatabase.CANVAS_SIZE
           _ tt 2 3 7 12 8 4);
    try reflexivity; simpl; lia.
Defined.

(** ** The state machine *)

Section Machine.
Import StateMachine.

Lemma run_cons (m : machine) (s : signal) (o : observed)
      (rest : list (signal * observed)) :
  run m ((s, o) :: rest)
  = (fst (run (fst (deliver m s o)) rest),
     snd (deliver m s o) ++ snd (run (fst (deliver m s o)) rest)).
Proof.
  cbn [run]. destruct (deliver m s o) as [m1 a1]. cbn [fst snd].
  now destruct (run m1 rest).
Qed.

(** X21.  Without a database nothing is ever started: whatever signals
    arrive, in whatever order, the machine stays as it was constructed, and
    the only thing it does is to emit [error_occurred]; no overlay is shown,
    no worker is started, nothing is copied. *)
Theorem no_database_no_capture
        (loaded : option (list (string * vec)))
        (signals : list (signal * observed)) :
  no_database (__init__ loaded) = true ->
  fst (run (__init__ loaded) signals) = __init__ loaded /\
  Forall (fun a => is_error a = true) (snd (run (__init__ loaded) signals)).
Proof.
  intros Hn. induction signals as [|[s o] rest [IHm IHa]].
  - split; [reflexivity | constructor].
  - rewrite run_cons.
    assert (Hd : fst (deliver (__init__ loaded) s o) = __init__ loaded /\
                 Forall (fun a => is_error a = true)
                        (snd (deliver (__init__ loaded) s o))).
    { destruct s; unfold deliver, start_capture; rewrite ?Hn;
        cbn [_state __init__ AppState_eqb negb fst snd];
        split; try reflexivity; repeat constructor. }
    destruct Hd as [Hm Ha]. rewrite Hm. cbn [fst snd].
    split; [exact IHm|]. apply Forall_app. split; assumption.
Qed.

Ltac machine_cases m s o :=
  destruct m as [st db w]; destruct s; destruct st;
  destruct db as [[|e items]|];
  try match goal with
      | matches : list (string * IEEE.float) |- _ =>
          destruct matches as [|[n sc] ms]
      end;
  cbn -[String.append];
  destruct (overlay_visible o), (results_visible o), (thread_running o),
           (clipboard_failure o), w;
  cbn -[String.append].

Lemma deliver_workers (m : machine) (s : signal) (o : observed) :
  (workers_started (snd (deliver m s o)) + open_captures (fst (deliver m s o))
   <= captures_started (snd (deliver m s o)) + open_captures m)%nat.
Proof.
  unfold workers_started, captures_started, open_captures.
  machine_cases m s o; lia.
Qed.

Lemma run_workers (signals : list (signal * observed)) :
  forall m,
    (workers_started (snd (run m signals))
     <= captures_started (snd (run m signals)) + open_captures m)%nat.
Proof.
  induction signals as [|[s o] rest IH]; intros m.
  - cbn. lia.
  - rewrite run_cons. cbn [snd].
    unfold workers_started, captures_started in *.
    rewrite !filter_app, !length_app.
    pose proof (deliver_workers m s o) as Hd.
    unfold workers_started, captures_started in Hd.
    specialize (IH (fst (deliver m s o))). lia.
Qed.

(** X22.  In every run, from the construction on, at most one worker is
    started per capture: the number of workers started never exceeds the
    number of times the capture overlay was started. *)
Theorem at_most_one_worker_per_capture
        (loaded : option (list (string * vec)))
        (signals : list (signal * observed)) :
  (workers_started (snd (run (__init__ loaded) signals))
   <= captures_started (snd (run (__init__ loaded) signals)))%nat.
Proof.
  pose proof (run_workers signals (__init__ loaded)) as H.
  unfold open_captures in H. cbn [__init__ _state AppState_eqb] in H. lia.
Qed.





End Machine.

Lemma no_database_no_capture_witness :
  StateMachine.no_database (StateMachine.__init__ None) = true /\
  (fst (StateMachine.run (StateMachine.__init__ None) Samples.capture_run)
   = StateMachine.__init__ None /\
   Forall (fun a => StateMachine.is_error a = true)
          (snd (StateMachine.run (StateMachine.__init__ None) Samples.capture_run))).
Proof.
  split; [reflexivity|].
  apply (no_database_no_capture None Samples.capture_run). reflexivity.
Defined.



(** ** The position of the results window *)

Section Position.
Import ResultsWindow.



End Position.


